(** * The rule-based SEO scoring engine of lib/seoEngine.ts

    A shallow embedding of [countOccurrences], [fullText] and [analyzeSeo],
    with the part of the JavaScript string and regular-expression semantics
    that these three functions use.

    Conventions.
    - A JavaScript string is the list of its UTF-16 code units ([list N]).
      [toLowerCase] and the case folding of the [i] flag are exact on the
      Latin-1 range U+0000..U+00FF (English and Danish text); a code unit
      above U+00FF is carried unchanged. A statement that depends on how
      text above U+00FF changes case has the hypothesis [Spec.latin1] on
      that text.
    - A JavaScript [number] that holds a count is an integer ([Z]); the one
      fraction of the engine, the semantic ratio, is a rational ([Q]).
    - A call that may throw returns an [option]: the only such call is
      [new RegExp(...)]. *)

From Stdlib Require Import ZArith NArith QArith Qround Lia DecimalString.
From stdpp Require Import base option list strings numbers.

Local Open Scope N_scope.

(** ** JavaScript strings *)
Module JsString.

Abbreviation str := (list N).

(** The code units of a source literal. The literals of this file are
    written in UTF-8, as the source file is; every character of theirs is
    in the Basic Multilingual Plane, so one to three bytes give one unit. *)
Fixpoint utf16 (bytes : list N) : str :=
  match bytes with
  | [] => []
  | b0 :: r0 =>
      if b0 <? 0x80 then b0 :: utf16 r0
      else match r0 with
           | [] => [b0]
           | b1 :: r1 =>
               if b0 <? 0xE0
               then ((b0 - 0xC0) * 64 + (b1 - 0x80)) :: utf16 r1
               else match r1 with
                    | [] => [b0; b1]
                    | b2 :: r2 =>
                        ((b0 - 0xE0) * 4096 + (b1 - 0x80) * 64 + (b2 - 0x80))
                          :: utf16 r2
                    end
           end
  end.

Definition js (s : string) : str :=
  utf16 (map Ascii.N_of_ascii (String.list_ascii_of_string s)).

(** [s.length === 0], i.e. [!s] for a string. *)
Definition isEmpty (s : str) : bool :=
  match s with [] => true | _ => false end.

(** [.length] of a string or of an array *)
Definition len {A : Type} (s : list A) : Z := Z.of_nat (length s).

(** String.prototype.toLowerCase, one code unit at a time: A-Z and the
    capital letters of Latin-1 (U+00C0..U+00DE without the sign U+00D7). *)
Definition lowerUnit (c : N) : N :=
  if ((0x41 <=? c) && (c <=? 0x5A))
     || ((0xC0 <=? c) && (c <=? 0xDE) && negb (c =? 0xD7))
  then c + 32 else c.

Definition toLowerCase (s : str) : str := map lowerUnit s.

(** Canonicalize of the [i] flag (no [u] flag): the upper-case form of the
    unit when that is one unit, except that a unit above U+007F is never
    folded into ASCII. U+00DF has a two-unit upper case and stays. *)
Definition canonicalize (c : N) : N :=
  if ((0x61 <=? c) && (c <=? 0x7A))
     || ((0xE0 <=? c) && (c <=? 0xFE) && negb (c =? 0xF7))
  then c - 32
  else if c =? 0xFF then 0x178
  else if c =? 0xB5 then 0x39C
  else c.

(** The class [\s]: WhiteSpace and LineTerminator. *)
Definition isWhiteSpace (c : N) : bool :=
  ((0x09 <=? c) && (c <=? 0x0D))
  || (c =? 0x20) || (c =? 0xA0) || (c =? 0x1680)
  || ((0x2000 <=? c) && (c <=? 0x200A))
  || (c =? 0x2028) || (c =? 0x2029) || (c =? 0x202F)
  || (c =? 0x205F) || (c =? 0x3000) || (c =? 0xFEFF).

Fixpoint startsWith (s p : str) : bool :=
  match p, s with
  | [], _ => true
  | _ :: _, [] => false
  | a :: p', b :: s' => (a =? b) && startsWith s' p'
  end.

(** String.prototype.includes *)
Fixpoint includes (s p : str) : bool :=
  startsWith s p
  || match s with
     | [] => false
     | _ :: t => includes t p
     end.

(** Array.prototype.join *)
Fixpoint join (sep : str) (l : list str) : str :=
  match l with
  | [] => []
  | [x] => x
  | x :: rest => x ++ sep ++ join sep rest
  end.

(** [s.split(/\s+/)]: the pieces between the maximal runs of white space;
    an empty piece comes first when the string starts with white space and
    last when it ends with it, and the empty string gives one empty piece.
    [inRun] is set while the scan is inside a run, where [cur] is empty. *)
Fixpoint splitWsFrom (inRun : bool) (cur : str) (s : str) : list str :=
  match s with
  | [] => [cur]
  | c :: t =>
      if isWhiteSpace c
      then (if inRun then splitWsFrom true cur t
            else cur :: splitWsFrom true [] t)
      else splitWsFrom false (cur ++ [c]) t
  end.

Definition splitWs (s : str) : list str := splitWsFrom false [] s.

(** The text of an integer in a template literal. *)
Definition ofNumber (z : Z) : str :=
  js (NilZero.string_of_int (Z.to_int z)).

End JsString.
Export JsString.

(** ** Regular expressions

    The expressions of the engine are alternatives of sequences of three
    kinds of atoms over classes of code units; a class is its membership
    test. Groups capture nothing that the engine reads. *)
Module RegExp.

Inductive atom : Type :=
| Chr (p : N → bool)    (* one unit of the class *)
| Plus (p : N → bool)   (* class+, greedy *)
| Opt (p : N → bool).   (* class?, greedy *)

Abbreviation seq := (list atom).
Abbreviation regex := (list (list atom)).

(** Classes. [lit] is a pattern character, [liti] the same under the [i]
    flag, [noneOf] a negated class. *)
Definition lit (ch : N) : N → bool := λ c, c =? ch.
Definition liti (ch : N) : N → bool := λ c, canonicalize c =? canonicalize ch.
Definition noneOf (stop : N → bool) : N → bool := λ c, negb (stop c).

Definition chars (s : str) : seq := map (λ ch, Chr (lit ch)) s.
Definition charsi (s : str) : seq := map (λ ch, Chr (liti ch)) s.

(** One or more units of [p], as many as possible, then [k]; the number of
    units matched in all. A failure of [k] gives back one unit at a time. *)
Fixpoint plusLen (p : N → bool) (k : str → option nat) (s : str) : option nat :=
  match s with
  | [] => None
  | c :: t =>
      if p c
      then match plusLen p k t with
           | Some n => Some (S n)
           | None => S <$> k t
           end
      else None
  end.

(** The length of the match of a sequence at the start of [s]. *)
Fixpoint matchSeq (r : seq) (s : str) : option nat :=
  match r with
  | [] => Some 0%nat
  | Chr p :: r' =>
      match s with
      | c :: t => if p c then S <$> matchSeq r' t else None
      | [] => None
      end
  | Plus p :: r' => plusLen p (matchSeq r') s
  | Opt p :: r' =>
      match s with
      | c :: t =>
          if p c
          then match matchSeq r' t with
               | Some n => Some (S n)
               | None => matchSeq r' s
               end
          else matchSeq r' s
      | [] => matchSeq r' s
      end
  end.

(** Alternatives are tried from left to right. *)
Fixpoint matchAt (r : regex) (s : str) : option nat :=
  match r with
  | [] => None
  | alt :: rest =>
      match matchSeq alt s with
      | Some n => Some n
      | None => matchAt rest s
      end
  end.

(** RegExp.prototype.test without the [g] flag: a match at some index. *)
Fixpoint test (r : regex) (s : str) : bool :=
  match matchAt r s with
  | Some _ => true
  | None => match s with
            | [] => false
            | _ :: t => test r t
            end
  end.

(** The number of matches that [s.match(r)] collects under the [g] flag:
    the scan resumes where a match ended and one unit further after an
    empty match. [skip] counts the units of the last match still to pass. *)
Fixpoint scanFrom (r : regex) (skip : nat) (s : str) : nat :=
  match skip with
  | S k => match s with
           | [] => 0
           | _ :: t => scanFrom r k t
           end
  | O =>
      match matchAt r s with
      | None => match s with
                | [] => 0
                | _ :: t => scanFrom r 0 t
                end
      | Some n => S (match s with
                     | [] => 0
                     | _ :: t => scanFrom r (pred n) t
                     end)
      end
  end%nat.

Definition matchCount (r : regex) (s : str) : nat := scanFrom r 0 s.

(** The syntax characters, the class [[.*+?^${}()|[\]\\]] of the escape. *)
Definition backslash : N := 0x5C.

Definition isSyntaxChar (c : N) : bool :=
  bool_decide (c ∈ js ".*+?^${}()|[]" ++ [backslash]).

(** [keyword.replace(/[.*+?^${}()|[\]\\]/g, '\\$&')] *)
Definition escapeRegExp (keyword : str) : str :=
  flat_map (λ c, if isSyntaxChar c then [backslash; c] else [c]) keyword.

(** [new RegExp(pattern, 'g')] for the patterns that are sequences of
    plain units and escaped syntax characters. Any other pattern (a bare
    syntax character, another escape, a trailing backslash) is outside
    this embedding or a SyntaxError: [None] stands for both. *)
Fixpoint RegExp_new (pattern : str) : option seq :=
  match pattern with
  | [] => Some []
  | c :: t =>
      if c =? backslash
      then match t with
           | d :: t' =>
               if isSyntaxChar d then (Chr (lit d) ::.) <$> RegExp_new t'
               else None
           | [] => None
           end
      else if isSyntaxChar c then None
      else (Chr (lit c) ::.) <$> RegExp_new t
  end.

End RegExp.
Export RegExp.

(** ** The data of the engine (lines 4-57) *)

Local Open Scope Z_scope.

Module SeoInput.
Record t : Type := mk {
  url : str;
  competitorUrls : list str;
  targetKeyword : str;
  semanticKeywords : list str;
  pageTitle : str;
  metaDescription : str;
  h1 : str;
  bodyContent : str;
  (* Auto-populated from scrape *)
  wordCount : option Z;
  internalLinks : option Z;
  h2Count : option Z
}.
End SeoInput.

Inductive KeywordStatus : Type := God | Optimer | Mangler.

#[global] Instance KeywordStatus_eq_dec : EqDecision KeywordStatus.
Proof. solve_decision. Defined.

Module KeywordResult.
Record t : Type := mk {
  keyword : str;
  status : KeywordStatus;
  currentCount : Z;
  recommendedMin : Z;
  recommendedMax : Z
}.
End KeywordResult.

Inductive RecStatus : Type := ok | warn | error.

Module RecommendationItem.
Record t : Type := mk {
  id : str;
  label : str;
  status : RecStatus;
  statusLabel : str;
  detail : str
}.
End RecommendationItem.

Module ContentGap.
Record t : Type := mk {
  num : str;
  tag : str;
  title : str;
  description : str;
  color : str
}.
End ContentGap.

Inductive Priority : Type := red | yellow | green.

Module QuickWin.
Record t : Type := mk {
  priority : Priority;
  title : str;
  detail : str
}.
End QuickWin.

Module SeoResult.
Record t : Type := mk {
  score : Z;
  maxScore : Z;
  percentage : Z;
  keywords : list KeywordResult.t;
  recommendations : list RecommendationItem.t;
  contentGaps : list ContentGap.t;
  quickWins : list QuickWin.t;
  wordCount : Z;
  keywordsFound : Z;
  keywordsMissing : Z;
  keywordsOptimise : Z
}.
End SeoResult.

(** ** The engine *)
Module Engine.

Definition dquote : N := 0x22%N.

(** Math.round: the nearest integer, a half goes up. *)
Definition Math_round (x : Q) : Z := Qfloor (x + (1 # 2)).

(** Array.prototype.filter with a callback that may throw. *)
Fixpoint filterM {A : Type} (f : A → option bool) (l : list A) : option (list A) :=
  match l with
  | [] => Some []
  | x :: rest =>
      b ← f x;
      kept ← filterM f rest;
      Some (if b : bool then x :: kept else kept)
  end.

(** Lines 59-65. Count keyword occurrences in text (case-insensitive). *)
Definition countOccurrences (text keyword : str) : option Z :=
  if isEmpty text || isEmpty keyword then Some 0
  else
    let escaped := escapeRegExp keyword in
    r ← RegExp_new (toLowerCase escaped);
    let matches := matchCount [r] (toLowerCase text) in
    Some (Z.of_nat matches).

(** Lines 67-75. Merge all text for scanning. *)
Definition fullText (input : SeoInput.t) : str :=
  toLowerCase
    (join (js " ")
       [SeoInput.pageTitle input; SeoInput.metaDescription input;
        SeoInput.h1 input; SeoInput.bodyContent input]).

(** The regular-expression literals of [analyzeSeo]. *)

(** [/##|<h2/gi] *)
Definition h2Re : regex := [charsi (js "##"); charsi (js "<h2")].

(** [/\[([^\]]+)\]\(([^)]+)\)/g] *)
Definition markdownLinkRe : regex :=
  [[Chr (lit 0x5B%N); Plus (noneOf (lit 0x5D%N)); Chr (lit 0x5D%N);
    Chr (lit 0x28%N); Plus (noneOf (lit 0x29%N)); Chr (lit 0x29%N)]].

(** The literal for plain URLs, [/https?:\/\/CLASS+/gi], where CLASS is the
    negated class of white space, [<], [>] and the double quote. *)
Definition plainUrlRe : regex :=
  [charsi (js "http") ++ [Opt (liti 0x73%N)] ++ charsi (js "://")
   ++ [Plus (noneOf (λ c, isWhiteSpace c || liti 0x3C%N c
                          || liti 0x3E%N c || liti dquote c))]].

(** [/<a[^>]+href/gi] *)
Definition htmlLinkRe : regex :=
  [charsi (js "<a") ++ [Plus (noneOf (liti 0x3E%N))] ++ charsi (js "href")].

(** [/(faq|ofte stillede spørgsmål|spørgsmål og svar|q&a|questions)/i] *)
Definition faqRe : regex :=
  [charsi (js "faq"); charsi (js "ofte stillede spørgsmål");
   charsi (js "spørgsmål og svar"); charsi (js "q&a");
   charsi (js "questions")].

(** [allText.replace(/[_*#]/g, '')] *)
Definition stripMarkdown (allText : str) : str :=
  filter (λ c, c ∉ js "_*#") allText.

Section analyzeSeo.

Variable input : SeoInput.t.

Local Abbreviation targetKeyword := (SeoInput.targetKeyword input).
Local Abbreviation semanticKeywords := (SeoInput.semanticKeywords input).
Local Abbreviation pageTitle := (SeoInput.pageTitle input).
Local Abbreviation metaDescription := (SeoInput.metaDescription input).
Local Abbreviation h1 := (SeoInput.h1 input).
Local Abbreviation bodyContent := (SeoInput.bodyContent input).

(** Lines 78-80. *)
Definition text : str := fullText input.

Definition allKeywords : list str :=
  filter (λ kw, kw ≠ []) (targetKeyword :: semanticKeywords).

Definition wordCount : Z :=
  default (len (filter (λ w, w ≠ []) (splitWs bodyContent)))
          (SeoInput.wordCount input).

(** Lines 85-89. 1. Title tag (15 pts) *)
Definition titleHasKeyword : bool :=
  includes (toLowerCase pageTitle) (toLowerCase targetKeyword).
Definition titleGoodLength : bool :=
  (30 <=? len pageTitle) && (len pageTitle <=? 65).
Definition titlePoints : Z :=
  (if titleHasKeyword then 10 else 0) + (if titleGoodLength then 5 else 0).

(** Lines 91-95. 2. Meta description (15 pts) *)
Definition metaHasKeyword : bool :=
  includes (toLowerCase metaDescription) (toLowerCase targetKeyword).
Definition metaGoodLength : bool :=
  (120 <=? len metaDescription) && (len metaDescription <=? 160).
Definition metaPoints : Z :=
  (if metaHasKeyword then 8 else 0) + (if metaGoodLength then 7 else 0).

(** Lines 97-101. 3. H1 (10 pts) *)
Definition h1HasKeyword : bool :=
  includes (toLowerCase h1) (toLowerCase targetKeyword).
Definition h1Present : bool := 0 <? len h1.
Definition h1Points : Z :=
  (if h1Present then 5 else 0) + (if h1HasKeyword then 5 else 0).

(** Lines 103-107. 4. Content length (20 pts) *)
Definition contentPoints : Z :=
  if 800 <=? wordCount then 20
  else if 500 <=? wordCount then 14
  else if 300 <=? wordCount then 8
  else if 150 <=? wordCount then 4
  else 0.

(** Lines 109-114. 5. Keyword density - target keyword (15 pts) *)
Definition targetCount : option Z := countOccurrences text targetKeyword.
Definition densityPoints (targetCount : Z) : Z :=
  if 6 <=? targetCount then 15
  else if 4 <=? targetCount then 10
  else if 2 <=? targetCount then 5
  else if 1 <=? targetCount then 2
  else 0.

(** Lines 116-122. 6. Semantic keyword coverage (15 pts) *)
Definition semanticCovered : option Z :=
  covered ← filterM (λ kw, n ← countOccurrences text kw; Some (1 <=? n))
                    semanticKeywords;
  Some (len covered).
Definition semanticTotal : Z :=
  if len semanticKeywords =? 0 then 1 else len semanticKeywords.
(* The source divides in double precision. The rounded product below is
   the same integer for the exact quotient and for the double one on every
   list of up to 2000 keywords (by enumeration of the pairs). *)
Definition semanticRatio (semanticCovered : Z) : Q :=
  (inject_Z semanticCovered / inject_Z semanticTotal)%Q.
Definition semanticPoints (semanticCovered : Z) : Z :=
  Math_round (semanticRatio semanticCovered * 15)%Q.

(** Lines 124-127. 7. Subheadings (5 pts) *)
Definition h2Count : Z :=
  default (Z.of_nat (matchCount h2Re bodyContent)) (SeoInput.h2Count input).
Definition subheadingPoints : Z :=
  if 2 <=? h2Count then 5 else if 1 <=? h2Count then 3 else 0.

(** Lines 129-145. 8. Internal links (5 pts) - detect from markdown links,
    URLs, and HTML *)
Definition internalLinks : Z :=
  let internalLinks := default 0 (SeoInput.internalLinks input) in
  (* If no links passed from scraper, try to detect from content *)
  if internalLinks =? 0 then
    let allContent :=
      bodyContent ++ js " " ++ pageTitle ++ js " " ++ metaDescription in
    let markdownLinks := Z.of_nat (matchCount markdownLinkRe allContent) in
    let plainUrls := Z.of_nat (matchCount plainUrlRe allContent) in
    let htmlLinks := Z.of_nat (matchCount htmlLinkRe allContent) in
    markdownLinks + plainUrls + htmlLinks
  else internalLinks.
Definition linkPoints : Z := if 1 <=? internalLinks then 5 else 0.

(** Lines 83-147: the score is the sum of the eight components. *)
Definition score (targetCount semanticCovered : Z) : Z :=
  0 + titlePoints + metaPoints + h1Points + contentPoints
  + densityPoints targetCount + semanticPoints semanticCovered
  + subheadingPoints + linkPoints.

Definition percentage (score : Z) : Z :=
  Z.min (Math_round (inject_Z score)) 100.

(** Lines 149-166. Keyword table *)
Definition keywordResults : option (list KeywordResult.t) :=
  mapM (λ kw,
          count ← countOccurrences text kw;
          let isTarget := bool_decide (kw = targetKeyword) in
          let recMin := if isTarget then 5 else 2 in
          let recMax := if isTarget then 9 else 4 in
          let status :=
            if count =? 0 then Mangler
            else if count <? recMin then Optimer
            else God in
          Some (KeywordResult.mk kw status count recMin recMax))
       allKeywords.

Definition countStatus (s : KeywordStatus) (keywordResults : list KeywordResult.t) : Z :=
  len (filter (λ k, KeywordResult.status k = s) keywordResults).

Definition keywordsFound := countStatus God.
Definition keywordsOptimise := countStatus Optimer.
Definition keywordsMissing := countStatus Mangler.

(** Lines 235-258: the three copies of the FAQ detection of the
    recommendation list, one per field. *)
Definition faqStatus : RecStatus :=
  let allText := toLowerCase (bodyContent ++ h1 ++ pageTitle) in
  (* Remove markdown formatting (_, *, #) before checking *)
  let cleanText := stripMarkdown allText in
  let hasFaq := test faqRe cleanText in
  if hasFaq then ok else warn.

Definition faqStatusLabel : str :=
  let allText := toLowerCase (bodyContent ++ h1 ++ pageTitle) in
  let cleanText := stripMarkdown allText in
  let hasFaq := test faqRe cleanText in
  if hasFaq then js "Optimised" else js "1 advarsel".

Definition faqDetail : str :=
  let allText := toLowerCase (bodyContent ++ h1 ++ pageTitle) in
  let cleanText := stripMarkdown allText in
  let hasFaq := test faqRe cleanText in
  if hasFaq
  then js "FAQ-sektion fundet. Sørg for at tilføje JSON-LD structured data for at trigger rich snippets i Google."
  else js "Ingen FAQ-sektion fundet. Tilføj 3-5 spørgsmål/svar med JSON-LD structured data for bedre SERP-synlighed.".

(** Lines 168-259. Recommendations *)
Definition recommendations : list RecommendationItem.t :=
  [ RecommendationItem.mk
      (js "title") (js "Title Tag")
      (if titleHasKeyword && titleGoodLength then ok
       else if titleHasKeyword then warn else error)
      (if titleHasKeyword && titleGoodLength then js "Optimised"
       else if titleHasKeyword then js "1 advarsel" else js "1 fejl")
      (if titleHasKeyword
       then if titleGoodLength
            then js "Title tag er god (" ++ ofNumber (len pageTitle)
                 ++ js " tegn) og indeholder target keyword."
            else js "Title tag indeholder keyword, men er "
                 ++ ofNumber (len pageTitle)
                 ++ js " tegn. Optimal længde: 30–65 tegn."
       else js "Title tag mangler target keyword " ++ [dquote]
            ++ targetKeyword ++ [dquote]
            ++ js ". Tilføj det gerne tidligt i titlen.");
    RecommendationItem.mk
      (js "h1") (js "H1")
      (if h1HasKeyword then ok else if h1Present then warn else error)
      (if h1HasKeyword then js "Optimised"
       else if h1Present then js "1 advarsel" else js "1 fejl")
      (if h1HasKeyword
       then js "H1 er optimeret og indeholder " ++ [dquote]
            ++ targetKeyword ++ [dquote] ++ js "."
       else if h1Present
       then js "H1 er til stede, men mangler target keyword. Nuværende H1: "
            ++ [dquote] ++ h1 ++ [dquote]
       else js "Ingen H1 fundet. Tilføj en H1 med target keyword.");
    RecommendationItem.mk
      (js "subheadings") (js "Subheadings")
      (if 2 <=? h2Count then ok else if 1 <=? h2Count then warn else error)
      (if 2 <=? h2Count then js "Optimised"
       else ofNumber h2Count ++ js " fundet")
      (if 2 <=? h2Count
       then ofNumber h2Count ++ js " H2-overskrifter fundet. God struktur."
       else js "Kun " ++ ofNumber h2Count
            ++ js " H2 fundet. Tilsæt flere underoverskrifter der dækker semantiske keywords.");
    RecommendationItem.mk
      (js "content") (js "Content Length")
      (if 500 <=? wordCount then ok
       else if 300 <=? wordCount then warn else error)
      (if 500 <=? wordCount then js "Optimised" else js "1 fejl")
      (js "Siden har ~" ++ ofNumber wordCount ++ js " ord. "
       ++ (if 800 <=? wordCount then js "Fremragende indholdslængde."
           else if 500 <=? wordCount
           then js "God, men konkurrenter har typisk 800+ ord."
           else js "For kort. Google foretrækker 500–800+ ord for konkurrencedygtige søgetermer. Brug handlingsplanen nedenfor til at tilføje indhold."));
    RecommendationItem.mk
      (js "links") (js "Internal Links")
      (if 1 <=? internalLinks then ok else error)
      (if 1 <=? internalLinks then js "Optimised" else js "0 fundet")
      (if 1 <=? internalLinks
       then ofNumber internalLinks ++ js " "
            ++ (if internalLinks =? 1 then js "internt link"
                else js "interne links")
            ++ js " fundet. "
            ++ (if internalLinks =? 1
                then js "Ét relevant link er bedre end mange irrelevante."
                else js "God intern linking.")
       else js "Ingen interne links fundet. Tilsæt mindst ét relevant link til en relateret side.");
    RecommendationItem.mk
      (js "meta") (js "Meta Description")
      (if metaHasKeyword && metaGoodLength then ok
       else if metaHasKeyword then warn else error)
      (if metaHasKeyword && metaGoodLength then js "Optimised"
       else js "1 fejl")
      (if metaHasKeyword
       then if metaGoodLength
            then js "Meta description er optimeret ("
                 ++ ofNumber (len metaDescription) ++ js " tegn)."
            else js "Meta description indeholder keyword, men er "
                 ++ ofNumber (len metaDescription)
                 ++ js " tegn. Optimal: 120–160 tegn."
       else js "Meta description mangler target keyword og/eller er for "
            ++ (if len metaDescription <? 120 then js "kort" else js "lang")
            ++ js " (" ++ ofNumber (len metaDescription)
            ++ js " tegn). Optimal: 120–160 tegn.");
    RecommendationItem.mk
      (js "faq") (js "FAQ Section") faqStatus faqStatusLabel faqDetail ].

(** Lines 261-292. Content gaps (dynamic) *)
Definition missingKeywords (keywordResults : list KeywordResult.t) : list str :=
  map KeywordResult.keyword
      (filter (λ k, KeywordResult.status k = Mangler) keywordResults).

Definition contentGaps (keywordResults : list KeywordResult.t) : list ContentGap.t :=
  let missingKeywords := missingKeywords keywordResults in
  [ ContentGap.mk
      (js "Gap 01 · Indholdslængde")
      (js "#4f7fff")
      (if wordCount <? 500 then js "Siden er for kort" else js "Indholdsdybde")
      (if wordCount <? 500
       then js "Med kun ~" ++ ofNumber wordCount
            ++ js " ord er siden for tyndt indholdsalt. Konkurrenter har typisk 600–1000+ ord på tilsvarende kategorisider."
       else js "Siden har " ++ ofNumber wordCount
            ++ js " ord. Overvej at uddybe med produktspecifikke detaljer og FAQ for at styrke autoriteten.")
      (js "#4f7fff");
    ContentGap.mk
      (js "Gap 02 · Manglende keywords")
      (js "#ff7043")
      (if 0 <? len missingKeywords
       then ofNumber (len missingKeywords) ++ js " keywords mangler"
       else js "Semantisk dækning")
      (if 0 <? len missingKeywords
       then js "Disse keywords er ikke fundet på siden: "
            ++ join (js ", ") (take 4 missingKeywords)
            ++ (if 4 <? len missingKeywords then js " m.fl." else js "")
            ++ js ". Inkludér dem naturligt i brødtekst og overskrifter."
       else js "Alle semantiske keywords er dækket. Overvej yderligere long-tail varianter for at fange mere trafik.',")
      (js "#ff7043");
    ContentGap.mk
      (js "Gap 03 · Strukturerede data")
      (js "#2dce89")
      (js "FAQ + JSON-LD mangler")
      (js "Siden mangler sandsynligvis FAQ-sektion med JSON-LD structured data. Dette trigger rich snippets i Google og øger CTR markant for B2B-søgninger.")
      (js "#2dce89") ].

(** Lines 294-337. Quick wins: [push] appends at the end of the array. *)
Definition push {A : Type} (l : list A) (x : A) : list A := l ++ [x].

Definition quickWins (keywordResults : list KeywordResult.t) : list QuickWin.t :=
  let missingKeywords := missingKeywords keywordResults in
  let quickWins := [] in
  let quickWins :=
    if negb metaHasKeyword || negb metaGoodLength
    then push quickWins
           (QuickWin.mk red (js "Opdatér meta description")
              (js "Tilføj " ++ [dquote] ++ targetKeyword ++ [dquote]
               ++ js " og " ++ join (js ", ") (take 2 missingKeywords)
               ++ js " til meta beskrivelsen. Direkte CTR-effekt i SERP."))
    else quickWins in
  let quickWins :=
    if wordCount <? 500
    then push quickWins
           (QuickWin.mk red (js "Tilføj mere indhold (~300 ord)")
              (js "Siden har kun " ++ ofNumber wordCount
               ++ js " ord. Skriv et nyt afsnit der naturligt inkluderer de manglende keywords."))
    else quickWins in
  let quickWins :=
    if 0 <? len missingKeywords
    then push quickWins
           (QuickWin.mk yellow (js "Inkludér manglende semantiske keywords")
              (js "Brug " ++ join (js ", ") (take 3 missingKeywords)
               ++ js " naturligt i brødtekst, produktbeskrivelser eller FAQ."))
    else quickWins in
  (* Only suggest FAQ if not already present *)
  let allText := toLowerCase (bodyContent ++ h1 ++ pageTitle) in
  let cleanText := stripMarkdown allText in
  let hasFaq := test faqRe cleanText in
  let quickWins :=
    if negb hasFaq
    then push quickWins
           (QuickWin.mk yellow (js "Tilføj FAQ-sektion med JSON-LD")
              (js "3–5 spørgsmål og svar trigger rich snippets i Google og øger synlighed uden link-building."))
    else quickWins in
  let quickWins :=
    if internalLinks <? 3
    then push quickWins
           (QuickWin.mk green (js "Byg interne links fra relaterede sider")
              (js "Link til denne side fra relaterede kategorier med naturlige ankertekster der inkluderer target keyword."))
    else quickWins in
  quickWins.

(** Lines 77-352. *)
Definition analyzeSeo : option SeoResult.t :=
  targetCount ← targetCount;
  semanticCovered ← semanticCovered;
  let score := score targetCount semanticCovered in
  let percentage := percentage score in
  keywordResults ← keywordResults;
  Some (SeoResult.mk
          score 100 percentage keywordResults recommendations
          (contentGaps keywordResults) (quickWins keywordResults)
          wordCount (keywordsFound keywordResults)
          (keywordsMissing keywordResults)
          (keywordsOptimise keywordResults)).

End analyzeSeo.

End Engine.
Export Engine.

(** ** Functions of the statements

    What [countOccurrences] computes once the pattern is known to compile,
    and the keyword record that the table builds from such a count. They are
    proved equal to the code below ([countOccurrences_occurrences],
    [keywordResults_records]). *)
Module Spec.

(** The matches of the lower-cased keyword, unit for unit, in the
    lower-cased text, scanned from the left without overlap. *)
Definition occurrences (text keyword : str) : Z :=
  if isEmpty text || isEmpty keyword then 0
  else Z.of_nat (matchCount [chars (toLowerCase keyword)] (toLowerCase text)).

Definition statusOf (count recMin : Z) : KeywordStatus :=
  if count =? 0 then Mangler
  else if count <? recMin then Optimer
  else God.

Definition record (input : SeoInput.t) (kw : str) : KeywordResult.t :=
  let count := occurrences (text input) kw in
  let isTarget := bool_decide (kw = SeoInput.targetKeyword input) in
  KeywordResult.mk kw
    (statusOf count (if isTarget then 5 else 2)) count
    (if isTarget then 5 else 2) (if isTarget then 9 else 4).

Definition records (input : SeoInput.t) : list KeywordResult.t :=
  map (record input) (allKeywords input).

Definition covered (input : SeoInput.t) : list str :=
  filter (λ kw, 1 ≤ occurrences (text input) kw)
         (SeoInput.semanticKeywords input).

(** The report, with the counts above in the place of the calls. *)
Definition report (input : SeoInput.t) : SeoResult.t :=
  let score :=
    score input (occurrences (text input) (SeoInput.targetKeyword input))
          (len (covered input)) in
  SeoResult.mk
    score 100 (percentage score) (records input) (recommendations input)
    (contentGaps input (records input)) (quickWins input (records input))
    (wordCount input) (keywordsFound (records input))
    (keywordsMissing (records input)) (keywordsOptimise (records input)).

(** The FAQ detection, which the engine writes out four times: three times
    in the recommendation list and once before the quick wins. *)
Definition hasFaq (input : SeoInput.t) : bool :=
  test faqRe
       (stripMarkdown
          (toLowerCase (SeoInput.bodyContent input ++ SeoInput.h1 input
                        ++ SeoInput.pageTitle input))).

(** What one conditional [push] adds to the quick wins. *)
Definition itemIf {A : Type} (check : bool) (item : A) : list A :=
  if check then [item] else [].

(** The titles of the five quick wins, in the order of their checks. *)
Definition quickWinTitles : list str :=
  [js "Opdatér meta description"; js "Tilføj mere indhold (~300 ord)";
   js "Inkludér manglende semantiske keywords";
   js "Tilføj FAQ-sektion med JSON-LD";
   js "Byg interne links fra relaterede sider"].

Definition faqQuickWinTitle : str := js "Tilføj FAQ-sektion med JSON-LD".

(** The strings on which [toLowerCase] is String.prototype.toLowerCase
    exactly, unit for unit and whatever stands around a unit: those of the
    Latin-1 range. *)
Definition latin1 (s : str) : Prop := Forall (λ c, (c < 256)%N) s.

Definition latin1Input (input : SeoInput.t) : Prop :=
  latin1 (SeoInput.targetKeyword input)
  ∧ Forall latin1 (SeoInput.semanticKeywords input)
  ∧ latin1 (SeoInput.pageTitle input)
  ∧ latin1 (SeoInput.metaDescription input)
  ∧ latin1 (SeoInput.h1 input)
  ∧ latin1 (SeoInput.bodyContent input).

(** An entry that the word "empty or white-space only" of the cardinality
    law describes: every unit of it, if any, is white space. *)
Definition isBlank (s : str) : bool := forallb isWhiteSpace s.

End Spec.

(** ** The callers of the engine

    The page of the dashboard (app/page.tsx) builds the input of the engine
    from its form, and the scrape route (app/api/scrape/route.ts) tidies
    the meta description that fills the form. *)
Module Caller.

(** String.prototype.trimStart, trimEnd and trim: the white space and the
    line terminators at the ends, the units of the class [\s]. *)
Fixpoint trimStart (s : str) : str :=
  match s with
  | [] => []
  | c :: t => if isWhiteSpace c then trimStart t else s
  end.

Definition trimEnd (s : str) : str := reverse (trimStart (reverse s)).

Definition trim (s : str) : str := trimEnd (trimStart s).

(** [s.split(sep)] for a separator of one unit: the pieces between the
    separators, empty ones included; the empty string gives one piece. *)
Fixpoint splitFrom (sep : N) (cur : str) (s : str) : list str :=
  match s with
  | [] => [cur]
  | c :: t =>
      if (c =? sep)%N then cur :: splitFrom sep [] t
      else splitFrom sep (cur ++ [c]) t
  end.

Definition split (sep : N) (s : str) : list str := splitFrom sep [] s.

Definition comma : N := 0x2C%N.
Definition newline : N := 0x0A%N.

(** page.tsx, lines 7-17. *)
Module FormState.
Record t : Type := mk {
  url : str;
  competitorUrls : str;
  targetKeyword : str;
  semanticKeywords : str;
  customKeywords : str;
  pageTitle : str;
  metaDescription : str;
  h1 : str;
  bodyContent : str
}.
End FormState.

(** page.tsx, lines 135-144: the input that the page builds from the form. *)
Definition formInput (form : FormState.t) : SeoInput.t :=
  SeoInput.mk
    (FormState.url form)
    (filter (λ s, s ≠ [])
       (map trim (split newline (FormState.competitorUrls form))))
    (trim (FormState.targetKeyword form))
    (filter (λ s, s ≠ [])
       (map trim (split comma (FormState.semanticKeywords form))))
    (FormState.pageTitle form)
    (FormState.metaDescription form)
    (FormState.h1 form)
    (FormState.bodyContent form)
    None None None.

(** page.tsx, lines 133-146. Live-recalculate whenever form changes: the new
    value of [result], [None] for [null]. The outer option is for a throw. *)
Definition recalculate (form : FormState.t) : option (option SeoResult.t) :=
  if isEmpty (FormState.targetKeyword form) then Some None
  else
    let input := formInput form in
    r ← analyzeSeo input;
    Some (Some r).

(** route.ts, lines 79-87. Fix meta description - only take first sentence
    if multiple are concatenated. The argument is [metadata.description ??
    ''], the result the final value of [description]. *)
Definition fixDescription (description : str) : str :=
  if includes description [comma] then
    (* Split by comma and take first part if it looks like multiple
       descriptions *)
    let parts := split comma description in
    match parts with
    | part0 :: part1 :: _ =>
        if 50 <? len (trim part1) then trim part0 else description
    | _ => description
    end
  else description.

End Caller.
Export Caller.

(** ** Sample pages *)
Module Examples.

(** A page as the form of the dashboard submits it: no scraped counts. *)
Definition page (target : str) (semantic : list str)
    (title meta h1 body : str) : SeoInput.t :=
  SeoInput.mk (js "https://example.dk/sko") [] target semantic
              title meta h1 body None None None.

Definition noSemantic : SeoInput.t :=
  page (js "sko") [] (js "Sko") (js "") (js "") (js "sko til alle").

(** No target keyword, everything else in order: a title of 30 units, a
    description of 120, a heading, a covered semantic keyword and scraped
    counts of 800 words, one link and two subheadings. *)
Definition emptyTarget : SeoInput.t :=
  SeoInput.mk (js "https://example.dk/sko") [] (js "") [js "a"]
              (replicate 30 0x61%N) (replicate 120 0x61%N) (js "a") (js "a")
              (Some 800) (Some 1) (Some 2).

Definition emptyPage : SeoInput.t :=
  page (js "") [] (js "") (js "") (js "") (js "").

(** The scraper found no link of the page's own domain; the body has a URL. *)
Definition scrapedNoLinks : SeoInput.t :=
  SeoInput.mk (js "https://example.dk/sko") [] (js "sko") []
              (js "Sko") (js "") (js "Sko") (js "se https://a.dk")
              None (Some 0) None.

Definition scraped : SeoInput.t :=
  SeoInput.mk (js "https://example.dk/sko") [] (js "sko") []
              (js "Sko") (js "") (js "Sko") (js "se https://a.dk ## sko")
              (Some 600) (Some 2) (Some 4).

Definition blankSemantic : SeoInput.t :=
  page (js "sko") [js " "] (js "Sko") (js "") (js "") (js "sko til alle").

Definition keywords : SeoInput.t :=
  page (js "sko") [js ""; js "boots"; js "sandaler"; js "sko"]
       (js "Sko") (js "") (js "Sko og boots")
       (js "Boots og sko. Flere boots og sko til alle.").

Definition withFaq : SeoInput.t :=
  page (js "sko") [js "boots"] (js "Sko") (js "") (js "Sko")
       (js "Boots og sko. Se vores FAQ her.").

Definition missingTarget : SeoInput.t :=
  page (js "sko") [js "boots"] (js "Boots") (js "") (js "")
       (js "Flere boots til alle.").

Definition manyMissing : SeoInput.t :=
  page (js "sko") [js "a1"; js "a2"; js "a3"; js "a4"; js "a5"]
       (js "Boots") (js "") (js "") (js "Flere boots til alle.").

Definition emptyTargetCovered : SeoInput.t :=
  page (js "") [js "boots"] (js "Boots") (js "") (js "")
       (js "Flere boots til alle.").

(** The examples of the specification. *)
Definition redShoes : SeoInput.t :=
  page (js "red shoes") [] (js "Buy Red Shoes Online Today Fast")
       (js "") (js "") (js "").

Definition words799 : SeoInput.t :=
  SeoInput.mk (js "https://example.dk/sko") [] (js "sko") []
              (js "Sko") (js "") (js "Sko") (js "sko")
              (Some 799) None None.

(** Two bodies and their join by a line break. *)
Definition bodyA : SeoInput.t :=
  page (js "sko") [] (js "") (js "") (js "") (js "Sko til alle").
Definition bodyB : SeoInput.t :=
  page (js "sko") [] (js "") (js "") (js "") (js " og boots").
Definition bodyAB : SeoInput.t :=
  page (js "sko") [] (js "") (js "") (js "")
       (js "Sko til alle" ++ [0x0A%N] ++ js " og boots").

(** A heading with markdown emphasis inside the phrase, in capitals. *)
Definition emphasisedFaq : SeoInput.t :=
  page (js "sko") [] (js "Sko") (js "") (js "## Q&**A** om sko") (js "Sko").

(** The form of the dashboard, keywords typed with spaces and an empty
    entry. *)
Definition form : FormState.t :=
  FormState.mk (js "https://example.dk/sko") (js "") (js " sko ")
               (js " boots , ,sandaler,") (js "") (js "Sko") (js "")
               (js "Sko") (js "Sko og boots").

Definition blankTargetForm : FormState.t :=
  FormState.mk (js "https://example.dk/sko") (js "") (js "  ")
               (js "boots") (js "") (js "Sko") (js "") (js "Sko")
               (js "Sko og boots").

End Examples.

(** ** Lemmas on strings and expressions *)
Section strings.

Lemma toLowerCase_app (s t : str) :
  toLowerCase (s ++ t) = toLowerCase s ++ toLowerCase t.
Proof. apply map_app. Qed.

Lemma startsWith_nil (s : str) : startsWith s [] = true.
Proof. by destruct s. Qed.

Lemma includes_nil (s : str) : includes s [] = true.
Proof. destruct s; simpl; by rewrite ?startsWith_nil. Qed.

Lemma syntaxChars_eq :
  js ".*+?^${}()|[]" ++ [backslash]
  = [46; 42; 43; 63; 94; 36; 123; 125; 40; 41; 124; 91; 93; 92]%N.
Proof. reflexivity. Qed.

Lemma isSyntaxChar_true (c : N) :
  isSyntaxChar c = true →
  c ∈ [46; 42; 43; 63; 94; 36; 123; 125; 40; 41; 124; 91; 93; 92]%N.
Proof.
  unfold isSyntaxChar. rewrite syntaxChars_eq. apply bool_decide_eq_true_1.
Qed.

Lemma isSyntaxChar_false (c : N) :
  isSyntaxChar c = false →
  c ∉ [46; 42; 43; 63; 94; 36; 123; 125; 40; 41; 124; 91; 93; 92]%N.
Proof.
  unfold isSyntaxChar. rewrite syntaxChars_eq. apply bool_decide_eq_false_1.
Qed.

Lemma lowerUnit_cases (c : N) :
  lowerUnit c = c
  ∨ (lowerUnit c = c + 32 ∧ (0x41 ≤ c ≤ 0x5A ∨ 0xC0 ≤ c ≤ 0xDE))%N.
Proof.
  unfold lowerUnit.
  destruct (N.leb_spec 0x41 c), (N.leb_spec c 0x5A),
    (N.leb_spec 0xC0 c), (N.leb_spec c 0xDE), (N.eqb_spec c 0xD7);
    simpl; auto; right; split; auto; lia.
Qed.

(** Lower-casing leaves a syntax character alone and makes none. *)
Lemma lowerUnit_syntaxChar (c : N) :
  isSyntaxChar c = true → lowerUnit c = c.
Proof.
  intros H%isSyntaxChar_true.
  repeat (apply elem_of_cons in H as [-> | H]; [reflexivity |]).
  by apply elem_of_nil in H.
Qed.

Lemma isSyntaxChar_lowerUnit (c : N) :
  isSyntaxChar c = false → isSyntaxChar (lowerUnit c) = false.
Proof.
  intros Hc. destruct (isSyntaxChar (lowerUnit c)) eqn:Hl; [| done].
  apply isSyntaxChar_true in Hl.
  destruct (lowerUnit_cases c) as [E | [E Hr]].
  - rewrite E in Hl. by apply isSyntaxChar_false in Hc.
  - rewrite E in Hl. exfalso.
    repeat (apply elem_of_cons in Hl as [Hl | Hl]; [lia |]).
    by apply elem_of_nil in Hl.
Qed.

Lemma isSyntaxChar_backslash : isSyntaxChar backslash = true.
Proof. reflexivity. Qed.

(** The escaped keyword, lower-cased, always compiles, to the expression
    that matches the lower-cased keyword unit for unit. *)
Lemma RegExp_new_escape (keyword : str) :
  RegExp_new (toLowerCase (escapeRegExp keyword))
  = Some (chars (toLowerCase keyword)).
Proof.
  induction keyword as [| c k IH]; [done |].
  unfold escapeRegExp in *. simpl flat_map.
  destruct (isSyntaxChar c) eqn:Hc.
  - cbn [app toLowerCase map RegExp_new]. fold (toLowerCase (flat_map
      (λ c, if isSyntaxChar c then [backslash; c] else [c]) k)).
    change (lowerUnit backslash) with backslash.
    rewrite N.eqb_refl, (lowerUnit_syntaxChar c Hc), Hc, IH. done.
  - cbn [app toLowerCase map RegExp_new]. fold (toLowerCase (flat_map
      (λ c, if isSyntaxChar c then [backslash; c] else [c]) k)).
    rewrite (isSyntaxChar_lowerUnit c Hc).
    destruct (N.eqb_spec (lowerUnit c) backslash) as [E | _].
    + pose proof (isSyntaxChar_lowerUnit c Hc) as H.
      rewrite E, isSyntaxChar_backslash in H. done.
    + rewrite IH. done.
Qed.

End strings.

(** ** The engine never throws *)
Section totality.

Lemma countOccurrences_occurrences (text keyword : str) :
  countOccurrences text keyword = Some (Spec.occurrences text keyword).
Proof.
  unfold countOccurrences, Spec.occurrences.
  destruct (isEmpty text || isEmpty keyword); [done |].
  by rewrite RegExp_new_escape.
Qed.

Lemma occurrences_nonneg (text keyword : str) :
  0 ≤ Spec.occurrences text keyword.
Proof.
  unfold Spec.occurrences.
  destruct (isEmpty text || isEmpty keyword); lia.
Qed.

Lemma occurrences_empty_keyword (text : str) : Spec.occurrences text [] = 0.
Proof. unfold Spec.occurrences. by rewrite orb_true_r. Qed.

Lemma filterM_covered (text : str) (l : list str) :
  filterM (λ kw, n ← countOccurrences text kw; Some (1 <=? n)) l
  = Some (filter (λ kw, 1 ≤ Spec.occurrences text kw) l).
Proof.
  induction l as [| kw l IH]; [done |].
  cbn [filterM]. rewrite countOccurrences_occurrences, IH. simpl.
  destruct (Z.leb_spec 1 (Spec.occurrences text kw)).
  - by rewrite filter_cons_True.
  - rewrite filter_cons_False; [done | lia].
Qed.

Variable input : SeoInput.t.

Lemma targetCount_occurrences :
  targetCount input
  = Some (Spec.occurrences (text input) (SeoInput.targetKeyword input)).
Proof. apply countOccurrences_occurrences. Qed.

Lemma semanticCovered_covered :
  semanticCovered input = Some (len (Spec.covered input)).
Proof. unfold semanticCovered. by rewrite filterM_covered. Qed.

Lemma keywordResults_records :
  keywordResults input = Some (Spec.records input).
Proof.
  unfold keywordResults, Spec.records.
  induction (allKeywords input) as [| kw l IH]; [done |].
  cbn [mapM]. rewrite countOccurrences_occurrences. simpl.
  rewrite IH. done.
Qed.

Lemma analyzeSeo_report : analyzeSeo input = Some (Spec.report input).
Proof.
  unfold analyzeSeo.
  rewrite targetCount_occurrences, semanticCovered_covered. simpl.
  rewrite keywordResults_records. done.
Qed.

End totality.

(** ** The eight score components are bounded *)
Section bounds.

Lemma Math_round_integer (z : Z) : Math_round (inject_Z z) = z.
Proof.
  unfold Math_round, Qfloor, Qplus, inject_Z. simpl.
  change (Z.pos (1 * 2)) with 2. symmetry.
  apply (Z.div_unique_pos _ 2 z 1); lia.
Qed.

(** Math.round of a fraction of 15, in integer arithmetic. *)
Lemma Math_round_fraction (c t : Z) :
  0 < t →
  Math_round (inject_Z c / inject_Z t * 15)%Q = (30 * c + t) `div` (2 * t).
Proof.
  intros Ht. unfold Math_round.
  assert (E : (inject_Z c / inject_Z t * 15 + (1 # 2)
               == inject_Z (30 * c + t) / inject_Z (2 * t))%Q).
  { rewrite !inject_Z_plus, !inject_Z_mult. field.
    unfold Qeq, inject_Z. simpl. lia. }
  rewrite E. symmetry. apply Zdiv_Qdiv.
Qed.

Lemma Math_round_fraction_bounds (c t : Z) :
  0 ≤ c ≤ t → 0 < t →
  0 ≤ Math_round (inject_Z c / inject_Z t * 15)%Q ≤ 15.
Proof.
  intros Hc Ht. rewrite Math_round_fraction by done. split.
  - apply Z.div_pos; lia.
  - apply Z.lt_succ_r, Z.div_lt_upper_bound; lia.
Qed.

Variable input : SeoInput.t.

Lemma titlePoints_bounds : 0 ≤ titlePoints input ≤ 15.
Proof.
  unfold titlePoints.
  destruct (titleHasKeyword input), (titleGoodLength input); lia.
Qed.

Lemma metaPoints_bounds : 0 ≤ metaPoints input ≤ 15.
Proof.
  unfold metaPoints.
  destruct (metaHasKeyword input), (metaGoodLength input); lia.
Qed.

Lemma h1Points_bounds : 0 ≤ h1Points input ≤ 10.
Proof.
  unfold h1Points. destruct (h1Present input), (h1HasKeyword input); lia.
Qed.

Lemma contentPoints_bounds : 0 ≤ contentPoints input ≤ 20.
Proof. unfold contentPoints. repeat case_match; lia. Qed.

Lemma densityPoints_bounds (n : Z) : 0 ≤ densityPoints n ≤ 15.
Proof. unfold densityPoints. repeat case_match; lia. Qed.

Lemma subheadingPoints_bounds : 0 ≤ subheadingPoints input ≤ 5.
Proof. unfold subheadingPoints. repeat case_match; lia. Qed.

Lemma linkPoints_bounds : 0 ≤ linkPoints input ≤ 5.
Proof. unfold linkPoints. case_match; lia. Qed.

Lemma semanticTotal_pos : 0 < semanticTotal input.
Proof.
  unfold semanticTotal, len.
  destruct (Z.eqb_spec (Z.of_nat (length (SeoInput.semanticKeywords input))) 0); lia.
Qed.

Lemma covered_le_total : 0 ≤ len (Spec.covered input) ≤ semanticTotal input.
Proof.
  unfold semanticTotal, Spec.covered, len.
  pose proof (length_filter
    (λ kw, 1 ≤ Spec.occurrences (text input) kw)
    (SeoInput.semanticKeywords input)).
  case_match; lia.
Qed.

Lemma semanticPoints_bounds :
  0 ≤ semanticPoints input (len (Spec.covered input)) ≤ 15.
Proof.
  unfold semanticPoints, semanticRatio.
  apply Math_round_fraction_bounds;
    [apply covered_le_total | apply semanticTotal_pos].
Qed.

End bounds.

(** ** Semantic coverage without semantic keywords *)
Section semantic_coverage.

(** C1, as the specification states it, fails on the page [noSemantic]: its
    list of semantic keywords is empty and the semantic-coverage component
    is 0, not 15. *)
Lemma C1_counterexample :
  SeoInput.semanticKeywords Examples.noSemantic = []
  ∧ semanticCovered Examples.noSemantic = Some 0
  ∧ semanticPoints Examples.noSemantic 0 = 0
  ∧ semanticPoints Examples.noSemantic 0 ≠ 15.
Proof. repeat split; [vm_compute; reflexivity .. | vm_compute; discriminate]. Qed.

(** C1, amended: for every input whose semanticKeywords list is empty the
    denominator defaults to 1, no keyword is covered, and the
    semantic-coverage component is round(0 / 1 * 15) = 0. *)
Theorem C1_no_semantic_keywords_no_credit (input : SeoInput.t) :
  SeoInput.semanticKeywords input = [] →
  semanticTotal input = 1
  ∧ ∃ covered, semanticCovered input = Some covered
               ∧ covered = 0
               ∧ semanticPoints input covered = 0.
Proof.
  intros Hnil. split.
  - unfold semanticTotal. by rewrite Hnil.
  - exists 0. split; [| split; [done |]].
    + rewrite semanticCovered_covered. unfold Spec.covered. by rewrite Hnil.
    + unfold semanticPoints, semanticRatio, semanticTotal. by rewrite Hnil.
Qed.

Lemma C1_no_semantic_keywords_no_credit_witness :
  SeoInput.semanticKeywords Examples.noSemantic = []
  ∧ semanticTotal Examples.noSemantic = 1
  ∧ ∃ covered, semanticCovered Examples.noSemantic = Some covered
               ∧ covered = 0
               ∧ semanticPoints Examples.noSemantic covered = 0.
Proof.
  split; [reflexivity |].
  apply (C1_no_semantic_keywords_no_credit Examples.noSemantic). reflexivity.
Defined.

End semantic_coverage.

(** ** The score and the percentage *)
Section score.

Variable input : SeoInput.t.

Lemma score_bounds :
  0 ≤ SeoResult.score (Spec.report input) ≤ 100.
Proof.
  cbn [Spec.report SeoResult.score]. unfold score.
  pose proof (titlePoints_bounds input). pose proof (metaPoints_bounds input).
  pose proof (h1Points_bounds input). pose proof (contentPoints_bounds input).
  pose proof (densityPoints_bounds
    (Spec.occurrences (text input) (SeoInput.targetKeyword input))).
  pose proof (semanticPoints_bounds input).
  pose proof (subheadingPoints_bounds input).
  pose proof (linkPoints_bounds input). lia.
Qed.

(** C6. The engine returns a report whose raw score is the sum of the eight
    components, lies between 0 and 100, and whose percentage is
    min(round(score), 100). *)
Theorem C6_score_bounds_and_percentage :
  ∃ r targetCount semanticCovered,
    analyzeSeo input = Some r
    ∧ Engine.targetCount input = Some targetCount
    ∧ Engine.semanticCovered input = Some semanticCovered
    ∧ SeoResult.score r
      = titlePoints input + metaPoints input + h1Points input
        + contentPoints input + densityPoints targetCount
        + semanticPoints input semanticCovered
        + subheadingPoints input + linkPoints input
    ∧ 0 ≤ SeoResult.score r ≤ 100
    ∧ SeoResult.percentage r
      = Z.min (Math_round (inject_Z (SeoResult.score r))) 100.
Proof.
  exists (Spec.report input),
    (Spec.occurrences (text input) (SeoInput.targetKeyword input)),
    (len (Spec.covered input)).
  split; [apply analyzeSeo_report |].
  split; [apply targetCount_occurrences |].
  split; [apply semanticCovered_covered |].
  split; [cbn [Spec.report SeoResult.score]; unfold score; lia |].
  split; [apply score_bounds | reflexivity].
Qed.

(** The rounding and the clamp leave the integer score as it is. *)
Lemma percentage_is_score :
  SeoResult.percentage (Spec.report input) = SeoResult.score (Spec.report input).
Proof.
  pose proof score_bounds as H.
  cbn [Spec.report SeoResult.score SeoResult.percentage] in *.
  unfold percentage. rewrite Math_round_integer. lia.
Qed.

End score.

(** ** An empty target keyword *)
Section empty_target.

(** C2, as the specification states it, fails on the page [emptyTarget]: the
    target keyword is empty, the engine returns a report, and the score is
    85 of 100. *)
Lemma C2_counterexample :
  SeoInput.targetKeyword Examples.emptyTarget = []
  ∧ ∃ r, analyzeSeo Examples.emptyTarget = Some r
         ∧ SeoResult.score r = 85
         ∧ SeoResult.percentage r = 85.
Proof. split; [reflexivity |]. eexists. vm_compute. done. Qed.

Variable input : SeoInput.t.
Hypothesis target_empty : SeoInput.targetKeyword input = [].

Lemma empty_target_included :
  titleHasKeyword input = true
  ∧ metaHasKeyword input = true
  ∧ h1HasKeyword input = true.
Proof.
  unfold titleHasKeyword, metaHasKeyword, h1HasKeyword.
  rewrite target_empty. cbn [toLowerCase map].
  by rewrite !includes_nil.
Qed.

(** C2, amended: for every input whose targetKeyword is the empty string
    the engine does not fail; the keyword counts 0 occurrences, the density
    component is 0 and the total score is at most 85. *)
Theorem C2_empty_target_keyword :
  ∃ r, analyzeSeo input = Some r
       ∧ targetCount input = Some 0
       ∧ densityPoints 0 = 0
       ∧ 0 ≤ SeoResult.score r ≤ 85.
Proof.
  exists (Spec.report input).
  split; [apply analyzeSeo_report |].
  assert (E : Spec.occurrences (text input) (SeoInput.targetKeyword input) = 0)
    by (rewrite target_empty; apply occurrences_empty_keyword).
  split; [by rewrite targetCount_occurrences, E |].
  split; [reflexivity |].
  cbn [Spec.report SeoResult.score]. unfold score. rewrite E.
  change (densityPoints 0) with 0.
  pose proof (titlePoints_bounds input). pose proof (metaPoints_bounds input).
  pose proof (h1Points_bounds input). pose proof (contentPoints_bounds input).
  pose proof (semanticPoints_bounds input).
  pose proof (subheadingPoints_bounds input).
  pose proof (linkPoints_bounds input). lia.
Qed.

(** The empty keyword is a substring of every title, description and
    heading: these three checks give 23 points to every such input. *)
Lemma empty_target_score_at_least_23 :
  23 ≤ SeoResult.score (Spec.report input).
Proof.
  destruct empty_target_included as (Ht & Hm & Hh).
  cbn [Spec.report SeoResult.score].
  unfold score, titlePoints, metaPoints, h1Points. rewrite Ht, Hm, Hh.
  pose proof (contentPoints_bounds input).
  pose proof (densityPoints_bounds
    (Spec.occurrences (text input) (SeoInput.targetKeyword input))).
  pose proof (semanticPoints_bounds input).
  pose proof (subheadingPoints_bounds input).
  pose proof (linkPoints_bounds input).
  destruct (titleGoodLength input), (metaGoodLength input), (h1Present input);
    lia.
Qed.

End empty_target.

Lemma C2_empty_target_keyword_witness :
  SeoInput.targetKeyword Examples.emptyPage = []
  ∧ ∃ r, analyzeSeo Examples.emptyPage = Some r
         ∧ targetCount Examples.emptyPage = Some 0
         ∧ densityPoints 0 = 0
         ∧ 0 ≤ SeoResult.score r ≤ 85.
Proof.
  split; [reflexivity |].
  apply (C2_empty_target_keyword Examples.emptyPage). reflexivity.
Defined.

(** ** The scraped counts *)
Section overrides.

(** C3, as the specification states it, fails on the page [scrapedNoLinks]:
    the link count 0 is supplied, the body holds one URL, and the engine's
    link count is 1. *)
Lemma C3_counterexample :
  SeoInput.internalLinks Examples.scrapedNoLinks = Some 0
  ∧ internalLinks Examples.scrapedNoLinks = 1
  ∧ linkPoints Examples.scrapedNoLinks = 5.
Proof. by vm_compute. Qed.

(** C3, amended: a supplied word count and a supplied subheading count are
    used as they are, whatever the body holds, and so is a supplied
    internal-link count other than 0; a supplied internal-link count of 0
    stands for no count, and the links are then detected from the content. *)
Theorem C3_overrides_take_precedence (input : SeoInput.t) :
  (∀ n, SeoInput.wordCount input = Some n →
        wordCount input = n
        ∧ ∃ r, analyzeSeo input = Some r ∧ SeoResult.wordCount r = n)
  ∧ (∀ n, SeoInput.h2Count input = Some n → h2Count input = n)
  ∧ (∀ n, SeoInput.internalLinks input = Some n → n ≠ 0 →
          internalLinks input = n)
  ∧ (SeoInput.internalLinks input = Some 0 →
     let allContent :=
       SeoInput.bodyContent input ++ js " " ++ SeoInput.pageTitle input
       ++ js " " ++ SeoInput.metaDescription input in
     internalLinks input
     = Z.of_nat (matchCount markdownLinkRe allContent)
       + Z.of_nat (matchCount plainUrlRe allContent)
       + Z.of_nat (matchCount htmlLinkRe allContent)).
Proof.
  split; [| split; [| split]].
  - intros n H. split; [unfold wordCount; by rewrite H |].
    exists (Spec.report input). split; [apply analyzeSeo_report |].
    cbn [Spec.report SeoResult.wordCount]. unfold wordCount. by rewrite H.
  - intros n H. unfold h2Count. by rewrite H.
  - intros n H Hn. unfold internalLinks. rewrite H. simpl.
    destruct (Z.eqb_spec n 0); [done | reflexivity].
  - intros H. unfold internalLinks. by rewrite H.
Qed.

Lemma C3_overrides_take_precedence_witness :
  wordCount Examples.scraped = 600
  ∧ h2Count Examples.scraped = 4
  ∧ internalLinks Examples.scraped = 2.
Proof.
  destruct (C3_overrides_take_precedence Examples.scraped)
    as (Hw & Hh & Hl & _).
  split; [apply Hw; reflexivity |].
  split; [apply Hh; reflexivity |].
  apply Hl; [reflexivity | discriminate].
Defined.

End overrides.

(** ** The keyword table *)
Section keyword_table.

Lemma records_keywords (input : SeoInput.t) :
  map KeywordResult.keyword (Spec.records input) = allKeywords input.
Proof.
  unfold Spec.records. rewrite map_map. simpl. apply map_id.
Qed.

(** C4, as the specification states it, fails on the page [blankSemantic]:
    its one semantic keyword is a single space, which the cardinality law
    removes and the engine keeps, so the table has two records and not one. *)
Lemma C4_counterexample :
  ∃ r, analyzeSeo Examples.blankSemantic = Some r
       ∧ length (SeoResult.keywords r) = 2%nat
       ∧ (1 + length (filter (λ kw, Spec.isBlank kw = false)
                        (SeoInput.semanticKeywords Examples.blankSemantic))
          = 1)%nat.
Proof. eexists. vm_compute. done. Qed.

(** C4, amended: for every input with a non-empty target keyword, the
    keyword-record list has exactly 1 + |semanticKeywords| entries after
    removing the empty semantic-keyword entries (white-space-only entries
    stay): the target keyword, then each remaining semantic keyword in input
    order. *)
Theorem C4_keyword_table_cardinality (input : SeoInput.t) :
  SeoInput.targetKeyword input ≠ [] →
  ∃ r, analyzeSeo input = Some r
       ∧ map KeywordResult.keyword (SeoResult.keywords r)
         = SeoInput.targetKeyword input
             :: filter (λ kw, kw ≠ []) (SeoInput.semanticKeywords input)
       ∧ length (SeoResult.keywords r)
         = (1 + length (filter (λ kw, kw ≠ [])
                          (SeoInput.semanticKeywords input)))%nat.
Proof.
  intros Ht. exists (Spec.report input).
  split; [apply analyzeSeo_report |].
  cbn [Spec.report SeoResult.keywords].
  assert (E : allKeywords input
              = SeoInput.targetKeyword input
                  :: filter (λ kw, kw ≠ []) (SeoInput.semanticKeywords input))
    by (unfold allKeywords; by rewrite filter_cons_True).
  split.
  - by rewrite records_keywords.
  - unfold Spec.records. by rewrite length_map, E.
Qed.

Lemma C4_keyword_table_cardinality_witness :
  SeoInput.targetKeyword Examples.keywords ≠ []
  ∧ ∃ r, analyzeSeo Examples.keywords = Some r
         ∧ map KeywordResult.keyword (SeoResult.keywords r)
           = [js "sko"; js "boots"; js "sandaler"; js "sko"]
         ∧ length (SeoResult.keywords r) = 4%nat.
Proof.
  split; [discriminate |].
  apply (C4_keyword_table_cardinality Examples.keywords). discriminate.
Defined.

(** C5, as the specification states it, fails on the page [keywords]: its
    fourth semantic keyword is spelled as the target keyword, and the record
    of this semantic keyword, the fourth of the table, has the range [5,9]
    and not [2,4]. *)
Lemma C5_counterexample :
  SeoInput.semanticKeywords Examples.keywords !! 3%nat = Some (js "sko")
  ∧ ∃ r k, analyzeSeo Examples.keywords = Some r
           ∧ map KeywordResult.keyword (SeoResult.keywords r)
             = SeoInput.targetKeyword Examples.keywords
                 :: [js "boots"; js "sandaler"; js "sko"]
           ∧ SeoResult.keywords r !! 3%nat = Some k
           ∧ KeywordResult.recommendedMin k = 5
           ∧ KeywordResult.recommendedMax k = 9
           ∧ (KeywordResult.recommendedMin k, KeywordResult.recommendedMax k)
             ≠ (2, 4).
Proof.
  split; [reflexivity |]. eexists _, _.
  split; [vm_compute; reflexivity |].
  split; [vm_compute; reflexivity |].
  split; [vm_compute; reflexivity |].
  split; [reflexivity |]. split; [reflexivity | discriminate].
Qed.

(** C5, amended. In every record of the returned table the count is the
    number of occurrences of the keyword in the merged text; a record whose
    keyword is the target keyword, a semantic keyword spelled as the target
    keyword included, has the range [5,9] and a record of any other keyword
    the range [2,4]; the status is Mangler (missing) at count 0, Optimer
    (needs work) at a count below the minimum and God (covered) from the
    minimum on. *)
Theorem C5_keyword_ranges_and_status (input : SeoInput.t) :
  ∃ r, analyzeSeo input = Some r
       ∧ Forall (λ k,
           let c := KeywordResult.currentCount k in
           let m := KeywordResult.recommendedMin k in
           countOccurrences (text input) (KeywordResult.keyword k) = Some c
           ∧ (KeywordResult.keyword k = SeoInput.targetKeyword input →
              m = 5 ∧ KeywordResult.recommendedMax k = 9)
           ∧ (KeywordResult.keyword k ≠ SeoInput.targetKeyword input →
              m = 2 ∧ KeywordResult.recommendedMax k = 4)
           ∧ (c = 0 → KeywordResult.status k = Mangler)
           ∧ (0 < c < m → KeywordResult.status k = Optimer)
           ∧ (m ≤ c → KeywordResult.status k = God))
         (SeoResult.keywords r).
Proof.
  exists (Spec.report input). split; [apply analyzeSeo_report |].
  cbn [Spec.report SeoResult.keywords]. unfold Spec.records.
  apply Forall_map, Forall_forall. intros kw _.
  cbn [Spec.record KeywordResult.currentCount KeywordResult.recommendedMin
       KeywordResult.recommendedMax KeywordResult.status KeywordResult.keyword].
  split; [apply countOccurrences_occurrences |].
  pose proof (occurrences_nonneg (text input) kw) as Hc.
  unfold Spec.statusOf.
  destruct (bool_decide_reflect (kw = SeoInput.targetKeyword input));
    repeat split; intros; try done;
    repeat match goal with
           | |- context [Z.eqb ?a ?b] => destruct (Z.eqb_spec a b)
           | |- context [Z.ltb ?a ?b] => destruct (Z.ltb_spec a b)
           end; try done; lia.
Qed.

End keyword_table.

(** ** Occurrences and substrings *)
Section occurrences.

Lemma lowerUnit_idempotent (c : N) : lowerUnit (lowerUnit c) = lowerUnit c.
Proof.
  destruct (lowerUnit_cases c) as [E | [E Hr]]; rewrite E; [done |].
  unfold lowerUnit.
  destruct (N.leb_spec 0x41 (c + 32)), (N.leb_spec (c + 32) 0x5A),
    (N.leb_spec 0xC0 (c + 32)), (N.leb_spec (c + 32) 0xDE); simpl; try done;
    lia.
Qed.

Lemma toLowerCase_idempotent (s : str) :
  toLowerCase (toLowerCase s) = toLowerCase s.
Proof.
  unfold toLowerCase. rewrite map_map.
  apply map_ext. intros c. apply lowerUnit_idempotent.
Qed.

Lemma text_lower (input : SeoInput.t) :
  toLowerCase (text input) = text input.
Proof. apply toLowerCase_idempotent. Qed.

Lemma matchSeq_chars (p s : str) :
  matchSeq (chars p) s = if startsWith s p then Some (length p) else None.
Proof.
  revert s. induction p as [| a p IH]; intros s; [by destruct s |].
  destruct s as [| b s]; [done |].
  cbn [chars map matchSeq startsWith]. fold (chars p). unfold lit at 1.
  rewrite (N.eqb_sym b a). destruct (N.eqb a b); [| done].
  rewrite IH. simpl. by destruct (startsWith s p).
Qed.

Lemma scanFrom_absent (p s : str) (skip : nat) :
  includes s p = false → scanFrom [chars p] skip s = 0%nat.
Proof.
  revert skip. induction s as [| c s IH]; intros skip H.
  - cbn [includes] in H. apply orb_false_elim in H as [H _].
    destruct skip; [| done]. cbn [scanFrom matchAt].
    rewrite matchSeq_chars, H. done.
  - cbn [includes] in H. apply orb_false_elim in H as [H1 H2].
    destruct skip; cbn [scanFrom]; [| by apply IH].
    cbn [matchAt]. rewrite matchSeq_chars, H1. by apply IH.
Qed.

Lemma scanFrom_present (p s : str) :
  includes s p = true → (1 ≤ scanFrom [chars p] 0 s)%nat.
Proof.
  induction s as [| c s IH]; intros H.
  - cbn [includes] in H. rewrite orb_false_r in H.
    cbn [scanFrom matchAt]. rewrite matchSeq_chars, H. lia.
  - cbn [includes] in H. cbn [scanFrom matchAt]. rewrite matchSeq_chars.
    destruct (startsWith (c :: s) p); [lia |].
    simpl in H. by apply IH.
Qed.

(** A non-empty keyword counts 0 exactly when the lower-cased text does not
    include the lower-cased keyword. *)
Lemma occurrences_zero_iff (text keyword : str) :
  keyword ≠ [] →
  Spec.occurrences text keyword = 0
  ↔ includes (toLowerCase text) (toLowerCase keyword) = false.
Proof.
  intros Hk. unfold Spec.occurrences.
  destruct keyword as [| k0 k]; [done |].
  destruct text as [| t0 t]; [done |].
  cbn [isEmpty orb]. unfold matchCount.
  destruct (includes (toLowerCase (t0 :: t)) (toLowerCase (k0 :: k))) eqn:E.
  - apply scanFrom_present in E. split; [lia | done].
  - by rewrite scanFrom_absent.
Qed.

Lemma includes_false_nonempty (s p : str) : includes s p = false → p ≠ [].
Proof. intros H ->. by rewrite includes_nil in H. Qed.

End occurrences.

(** ** Quick wins *)
Section quick_wins.

Variable input : SeoInput.t.

(** The five pushes, as five optional items in the order of the checks. *)
Lemma quickWins_items (keywordResults : list KeywordResult.t) :
  ∃ q1 q2 q3 q4 q5 : QuickWin.t,
    quickWins input keywordResults
    = Spec.itemIf (negb (metaHasKeyword input) || negb (metaGoodLength input)) q1
      ++ Spec.itemIf (wordCount input <? 500) q2
      ++ Spec.itemIf (0 <? len (missingKeywords keywordResults)) q3
      ++ Spec.itemIf (negb (Spec.hasFaq input)) q4
      ++ Spec.itemIf (internalLinks input <? 3) q5
    ∧ map QuickWin.priority [q1; q2; q3; q4; q5]
      = [red; red; yellow; yellow; green]
    ∧ map QuickWin.title [q1; q2; q3; q4; q5] = Spec.quickWinTitles
    ∧ QuickWin.detail q3
      = js "Brug " ++ join (js ", ") (take 3 (missingKeywords keywordResults))
        ++ js " naturligt i brødtekst, produktbeskrivelser eller FAQ.".
Proof.
  do 5 eexists. split.
  - unfold quickWins, push, Spec.itemIf, Spec.hasFaq. cbv zeta.
    destruct (negb (metaHasKeyword input) || negb (metaGoodLength input)),
      (wordCount input <? 500), (0 <? len (missingKeywords keywordResults)),
      (negb (test faqRe (stripMarkdown (toLowerCase
         (SeoInput.bodyContent input ++ SeoInput.h1 input
          ++ SeoInput.pageTitle input))))),
      (internalLinks input <? 3); reflexivity.
  - by repeat split.
Qed.

Lemma len_pos_nonempty {A : Type} (l : list A) :
  (0 <? len l) = bool_decide (l ≠ []).
Proof. by destruct l. Qed.

(** C7. The quick-win list of the returned report is the concatenation, in
    this order, of at most one item for each of five checks: (1) the meta
    description lacks the keyword or its length is out of range, (2) word
    count < 500, (3) some keyword is missing, (4) no FAQ section is
    detected, (5) link count < 3; the items have the priorities red (high),
    red (high), yellow (medium), yellow (medium), green (low), and a check
    that is false adds nothing. *)
Theorem C7_quick_wins_in_check_order :
  ∃ r (q1 q2 q3 q4 q5 : QuickWin.t),
    analyzeSeo input = Some r
    ∧ SeoResult.quickWins r
      = Spec.itemIf (negb (metaHasKeyword input) || negb (metaGoodLength input)) q1
        ++ Spec.itemIf (wordCount input <? 500) q2
        ++ Spec.itemIf (bool_decide (missingKeywords (SeoResult.keywords r) ≠ [])) q3
        ++ Spec.itemIf (negb (Spec.hasFaq input)) q4
        ++ Spec.itemIf (internalLinks input <? 3) q5
    ∧ map QuickWin.priority [q1; q2; q3; q4; q5]
      = [red; red; yellow; yellow; green]
    ∧ map QuickWin.title [q1; q2; q3; q4; q5] = Spec.quickWinTitles
    ∧ metaGoodLength input
      = (120 <=? len (SeoInput.metaDescription input))
        && (len (SeoInput.metaDescription input) <=? 160).
Proof.
  destruct (quickWins_items (Spec.records input))
    as (q1 & q2 & q3 & q4 & q5 & Hq & Hp & Ht & _).
  exists (Spec.report input), q1, q2, q3, q4, q5.
  split; [apply analyzeSeo_report |].
  cbn [Spec.report SeoResult.quickWins SeoResult.keywords].
  rewrite <- len_pos_nonempty. done.
Qed.

End quick_wins.

(** ** Content gaps *)
Section content_gaps.

Variable input : SeoInput.t.

(** C8. The content-gap list of the returned report has exactly three
    entries, on content depth, missing keywords and structured data. The
    first takes its text by word count < 500 against >= 500. The second
    takes it by the list of missing keywords being empty or not; when it is
    not, the text lists the first four missing keywords at most, in their
    order, joined by commas, and then has the suffix " m.fl." exactly when
    more than four are missing. *)
Theorem C8_content_gaps :
  ∃ r depth keywords data,
    analyzeSeo input = Some r
    ∧ SeoResult.contentGaps r = [depth; keywords; data]
    ∧ map ContentGap.num [depth; keywords; data]
      = [js "Gap 01 · Indholdslængde"; js "Gap 02 · Manglende keywords";
         js "Gap 03 · Strukturerede data"]
    ∧ (wordCount input < 500 →
       ContentGap.title depth = js "Siden er for kort"
       ∧ ContentGap.description depth
         = js "Med kun ~" ++ ofNumber (wordCount input)
           ++ js " ord er siden for tyndt indholdsalt. Konkurrenter har typisk 600–1000+ ord på tilsvarende kategorisider.")
    ∧ (500 ≤ wordCount input →
       ContentGap.title depth = js "Indholdsdybde"
       ∧ ContentGap.description depth
         = js "Siden har " ++ ofNumber (wordCount input)
           ++ js " ord. Overvej at uddybe med produktspecifikke detaljer og FAQ for at styrke autoriteten.")
    ∧ (missingKeywords (SeoResult.keywords r) = [] →
       ContentGap.title keywords = js "Semantisk dækning"
       ∧ ContentGap.description keywords
         = js "Alle semantiske keywords er dækket. Overvej yderligere long-tail varianter for at fange mere trafik.',")
    ∧ (missingKeywords (SeoResult.keywords r) ≠ [] →
       ∃ suffix,
         ContentGap.description keywords
         = js "Disse keywords er ikke fundet på siden: "
           ++ join (js ", ") (take 4 (missingKeywords (SeoResult.keywords r)))
           ++ suffix
           ++ js ". Inkludér dem naturligt i brødtekst og overskrifter."
         ∧ (4 < length (missingKeywords (SeoResult.keywords r)) →
            suffix = js " m.fl.")%nat
         ∧ (length (missingKeywords (SeoResult.keywords r)) ≤ 4 →
            suffix = [])%nat)
    ∧ ContentGap.title data = js "FAQ + JSON-LD mangler".
Proof.
  eexists (Spec.report input), _, _, _.
  split; [apply analyzeSeo_report |].
  split; [reflexivity |].
  cbn [Spec.report SeoResult.keywords ContentGap.title ContentGap.description
       ContentGap.num map].
  set (missing := missingKeywords (Spec.records input)).
  split; [reflexivity |].
  split; [| split; [| split; [| split; [| reflexivity]]]].
  - intros H. destruct (Z.ltb_spec (wordCount input) 500); [done | lia].
  - intros H. destruct (Z.ltb_spec (wordCount input) 500); [lia | done].
  - intros ->. done.
  - intros Hne. rewrite len_pos_nonempty, bool_decide_eq_true_2 by done.
    eexists. split; [reflexivity |]. unfold len.
    destruct (Z.ltb_spec 4 (Z.of_nat (length missing)));
      split; intros; try done; lia.
Qed.

End content_gaps.

(** ** The FAQ detection *)
Section faq.

Lemma test_app (r : regex) (pre s : str) :
  test r s = true → test r (pre ++ s) = true.
Proof.
  intros H. induction pre as [| c pre IH]; [done |].
  cbn [app test]. by destruct (matchAt r (c :: pre ++ s)).
Qed.

Lemma test_matchAt (r : regex) (s : str) (n : nat) :
  matchAt r s = Some n → test r s = true.
Proof. intros H. destruct s; cbn [test]; by rewrite H. Qed.

Lemma matchSeq_charsi (p s : str) :
  matchSeq (charsi p) (p ++ s) = Some (length p).
Proof.
  induction p as [| c p IH]; [done |].
  cbn [charsi map app matchSeq]. fold (charsi p). unfold liti at 1.
  by rewrite N.eqb_refl, IH.
Qed.

Lemma stripMarkdown_app (s t : str) :
  stripMarkdown (s ++ t) = stripMarkdown s ++ stripMarkdown t.
Proof. apply list.filter_app. Qed.

Lemma elem_of_itemIf {A : Type} (check : bool) (item x : A) :
  x ∈ Spec.itemIf check item ↔ check = true ∧ x = item.
Proof.
  destruct check; simpl.
  - rewrite list_elem_of_singleton. tauto.
  - rewrite elem_of_nil. split; [tauto | intros [? _]; discriminate].
Qed.

Variable input : SeoInput.t.

(** The three fields of the FAQ recommendation and the check of the quick
    wins evaluate the same predicate. *)
Lemma faqStatus_hasFaq :
  faqStatus input = if Spec.hasFaq input then ok else warn.
Proof. reflexivity. Qed.

Lemma hasFaq_literal (pre post : str) :
  SeoInput.bodyContent input = pre ++ js "FAQ" ++ post →
  Spec.hasFaq input = true.
Proof.
  intros Hbody. unfold Spec.hasFaq. rewrite Hbody.
  rewrite <- !app_assoc, !toLowerCase_app, !stripMarkdown_app.
  apply test_app.
  change (stripMarkdown (toLowerCase (js "FAQ"))) with (js "faq").
  apply (test_matchAt _ _ 3). unfold faqRe. cbn [matchAt].
  by rewrite matchSeq_charsi.
Qed.

Lemma faq_quick_win_absent_iff (keywordResults : list KeywordResult.t) :
  (∀ q, q ∈ quickWins input keywordResults →
        QuickWin.title q ≠ Spec.faqQuickWinTitle)
  ↔ Spec.hasFaq input = true.
Proof.
  destruct (quickWins_items input keywordResults)
    as (q1 & q2 & q3 & q4 & q5 & -> & _ & Ht & _).
  unfold Spec.quickWinTitles in Ht. cbn [map] in Ht.
  injection Ht as T1 T2 T3 T4 T5. split.
  - intros H. destruct (Spec.hasFaq input) eqn:E; [done |].
    exfalso. apply (H q4); [| exact T4].
    rewrite !elem_of_app, !elem_of_itemIf. simpl. tauto.
  - intros E q. rewrite E, !elem_of_app, !elem_of_itemIf.
    unfold Spec.faqQuickWinTitle.
    intros [[_ ->] | [[_ ->] | [[_ ->] | [[? _] | [_ ->]]]]];
      [rewrite T1 | rewrite T2 | rewrite T3 | discriminate | rewrite T5];
      vm_compute; discriminate.
Qed.

(** C9. The FAQ recommendation of the returned report, the seventh, has
    status ok exactly when no quick win has the title of the FAQ item; and
    when the body content contains the word FAQ, the status is ok and no
    such quick win is in the list. *)
Theorem C9_faq_detection_agrees :
  ∃ r faq,
    analyzeSeo input = Some r
    ∧ SeoResult.recommendations r !! 6%nat = Some faq
    ∧ RecommendationItem.id faq = js "faq"
    ∧ (RecommendationItem.status faq = ok
       ↔ ∀ q, q ∈ SeoResult.quickWins r →
              QuickWin.title q ≠ Spec.faqQuickWinTitle)
    ∧ (∀ pre post,
         SeoInput.bodyContent input = pre ++ js "FAQ" ++ post →
         RecommendationItem.status faq = ok
         ∧ ∀ q, q ∈ SeoResult.quickWins r →
                QuickWin.title q ≠ Spec.faqQuickWinTitle).
Proof.
  eexists (Spec.report input), _.
  split; [apply analyzeSeo_report |].
  split; [reflexivity |]. split; [reflexivity |].
  cbn [Spec.report SeoResult.quickWins RecommendationItem.status].
  rewrite faqStatus_hasFaq. split.
  - rewrite faq_quick_win_absent_iff. by destruct (Spec.hasFaq input).
  - intros pre post Hbody. rewrite faq_quick_win_absent_iff.
    by rewrite (hasFaq_literal pre post Hbody).
Qed.

End faq.

(** ** Missing keywords *)
Section missing_keywords.

Variable input : SeoInput.t.

Lemma record_missing_iff (kw : str) :
  KeywordResult.status (Spec.record input kw) = Mangler
  ↔ Spec.occurrences (text input) kw = 0.
Proof.
  cbn [Spec.record KeywordResult.status]. unfold Spec.statusOf.
  destruct (Z.eqb_spec (Spec.occurrences (text input) kw) 0) as [E | E];
    [done |].
  split; [| done]. by case_match.
Qed.

Lemma missingKeywords_cons_missing (kw : str) (l : list str) :
  Spec.occurrences (text input) kw = 0 →
  missingKeywords (map (Spec.record input) (kw :: l))
  = kw :: missingKeywords (map (Spec.record input) l).
Proof.
  intros H%record_missing_iff. unfold missingKeywords.
  cbn [map]. by rewrite filter_cons_True.
Qed.

Lemma missingKeywords_all_covered (l : list str) :
  Forall (λ kw, 1 ≤ Spec.occurrences (text input) kw) l →
  missingKeywords (map (Spec.record input) l) = [].
Proof.
  induction 1 as [| kw l Hkw _ IH]; [done |].
  unfold missingKeywords in *. cbn [map].
  rewrite filter_cons_False; [done |].
  rewrite record_missing_iff. lia.
Qed.

(** The table has no record of an empty keyword, so an empty target keyword,
    which counts 0, is never listed as missing. *)
Lemma empty_keyword_not_listed :
  [] ∉ missingKeywords (Spec.records input).
Proof.
  unfold missingKeywords, Spec.records, allKeywords.
  rewrite list_elem_of_fmap. intros (k & Hk & Hin).
  apply list_elem_of_filter in Hin as [_ Hin].
  apply list_elem_of_fmap in Hin as (kw & -> & Hin).
  apply list_elem_of_filter in Hin as [Hne _]. by cbn in Hk.
Qed.

(** C10, as it is stated, fails on the page [emptyTargetCovered]: the
    target keyword is empty, the engine counts 0 occurrences for it, and it
    is not among the missing keywords; the list is empty, the gap has its
    variant for an empty list and the quick win on missing keywords is not
    appended. *)
Lemma C10_counterexample :
  targetCount Examples.emptyTargetCovered = Some 0
  ∧ ∃ r gap,
      analyzeSeo Examples.emptyTargetCovered = Some r
      ∧ missingKeywords (SeoResult.keywords r) = []
      ∧ SeoResult.contentGaps r !! 1%nat = Some gap
      ∧ ContentGap.title gap = js "Semantisk dækning"
      ∧ js "Inkludér manglende semantiske keywords"
        ∉ map QuickWin.title (SeoResult.quickWins r).
Proof.
  split; [reflexivity |]. eexists _, _.
  split; [vm_compute; reflexivity |].
  split; [vm_compute; reflexivity |].
  split; [vm_compute; reflexivity |].
  split; [vm_compute; reflexivity |].
  vm_compute. intros H.
  repeat (apply elem_of_cons in H as [H | H]; [discriminate H |]).
  by apply elem_of_nil in H.
Qed.

(** C10, amended. For every input with a target keyword that is not empty:
    when the engine counts 0 occurrences of the target keyword in the merged
    text, the target keyword is the first of the missing keywords of the
    returned table; the missing-keywords gap then has its non-empty variant,
    whose list starts with the target keyword, and the quick win on missing
    keywords is in the list, naming the target keyword first. No other
    missing keyword is needed for this: the list is the target keyword alone
    when every semantic keyword occurs. *)
Theorem C10_uncounted_target_is_first_missing :
  SeoInput.targetKeyword input ≠ [] →
  targetCount input = Some 0 →
  ∃ r rest,
    analyzeSeo input = Some r
    ∧ missingKeywords (SeoResult.keywords r)
      = SeoInput.targetKeyword input :: rest
    ∧ (Forall (λ kw, countOccurrences (text input) kw ≠ Some 0)
              (SeoInput.semanticKeywords input) → rest = [])
    ∧ (∃ gap tail,
         SeoResult.contentGaps r !! 1%nat = Some gap
         ∧ ContentGap.title gap
           = ofNumber (len (SeoInput.targetKeyword input :: rest))
             ++ js " keywords mangler"
         ∧ ContentGap.description gap
           = js "Disse keywords er ikke fundet på siden: "
             ++ join (js ", ") (SeoInput.targetKeyword input :: take 3 rest)
             ++ tail)
    ∧ (∃ q,
         q ∈ SeoResult.quickWins r
         ∧ QuickWin.priority q = yellow
         ∧ QuickWin.title q = js "Inkludér manglende semantiske keywords"
         ∧ QuickWin.detail q
           = js "Brug "
             ++ join (js ", ") (SeoInput.targetKeyword input :: take 2 rest)
             ++ js " naturligt i brødtekst, produktbeskrivelser eller FAQ.").
Proof.
  intros Hne Hcount.
  assert (Hzero : Spec.occurrences (text input) (SeoInput.targetKeyword input) = 0)
    by (rewrite targetCount_occurrences in Hcount; by injection Hcount).
  set (others := filter (λ kw, kw ≠ []) (SeoInput.semanticKeywords input)).
  assert (Hall : allKeywords input = SeoInput.targetKeyword input :: others)
    by (unfold allKeywords; by rewrite filter_cons_True).
  assert (Hmiss : missingKeywords (Spec.records input)
                  = SeoInput.targetKeyword input
                      :: missingKeywords (map (Spec.record input) others))
    by (unfold Spec.records; rewrite Hall;
        by apply missingKeywords_cons_missing).
  exists (Spec.report input), (missingKeywords (map (Spec.record input) others)).
  split; [apply analyzeSeo_report |].
  cbn [Spec.report SeoResult.keywords SeoResult.contentGaps
       SeoResult.quickWins].
  split; [done |]. split; [| split].
  - intros Hcov. apply missingKeywords_all_covered.
    apply list.Forall_forall. intros kw Hin.
    apply list_elem_of_filter in Hin as [_ Hin].
    rewrite list.Forall_forall in Hcov. specialize (Hcov kw Hin).
    rewrite countOccurrences_occurrences in Hcov.
    pose proof (occurrences_nonneg (text input) kw).
    assert (Spec.occurrences (text input) kw ≠ 0) by congruence. lia.
  - eexists _, _. split; [reflexivity |].
    cbn [ContentGap.title ContentGap.description]. rewrite Hmiss.
    rewrite len_pos_nonempty, bool_decide_eq_true_2 by done.
    split; reflexivity.
  - destruct (quickWins_items input (Spec.records input))
      as (q1 & q2 & q3 & q4 & q5 & -> & Hp & Ht & Hd).
    injection Hp as _ _ P3 _ _. unfold Spec.quickWinTitles in Ht.
    injection Ht as _ _ T3 _ _.
    exists q3. split; [| by rewrite Hd, Hmiss].
    rewrite !elem_of_app, !elem_of_itemIf, Hmiss.
    rewrite len_pos_nonempty, bool_decide_eq_true_2 by done. tauto.
Qed.

End missing_keywords.

Lemma C10_uncounted_target_is_first_missing_witness :
  SeoInput.targetKeyword Examples.missingTarget ≠ []
  ∧ targetCount Examples.missingTarget = Some 0
  ∧ ∃ r, analyzeSeo Examples.missingTarget = Some r
         ∧ missingKeywords (SeoResult.keywords r) = [js "sko"].
Proof.
  split; [discriminate |]. split; [reflexivity |].
  destruct (C10_uncounted_target_is_first_missing Examples.missingTarget)
    as (r & rest & Hr & Hm & Hcov & _); [discriminate | reflexivity |].
  exists r. split; [exact Hr |].
  rewrite Hm, Hcov; [reflexivity |].
  repeat constructor. vm_compute. discriminate.
Defined.

(** ** The examples of the specification, and the corner cases *)
Section examples.

Example title_red_shoes : titlePoints Examples.redShoes = 15.
Proof. reflexivity. Qed.

Example content_799_words : contentPoints Examples.words799 = 14.
Proof. reflexivity. Qed.

Example density_three_occurrences : densityPoints 3 = 5.
Proof. reflexivity. Qed.

Example empty_page_scores_23 :
  SeoResult.score <$> analyzeSeo Examples.emptyPage = Some 23.
Proof. by vm_compute. Qed.

(** More than four missing keywords: the first four, then the suffix. *)
Example many_missing_keywords :
  ∃ r gap,
    analyzeSeo Examples.manyMissing = Some r
    ∧ SeoResult.contentGaps r !! 1%nat = Some gap
    ∧ ContentGap.title gap = js "6 keywords mangler"
    ∧ ContentGap.description gap
      = js "Disse keywords er ikke fundet på siden: sko, a1, a2, a3 m.fl.. Inkludér dem naturligt i brødtekst og overskrifter.".
Proof. eexists _, _. by vm_compute. Qed.

(** An empty target keyword counts 0 and has no record: nothing is missing
    when the semantic keywords are covered. *)
Example empty_target_not_missing :
  targetCount Examples.emptyTargetCovered = Some 0
  ∧ ∃ r, analyzeSeo Examples.emptyTargetCovered = Some r
         ∧ missingKeywords (SeoResult.keywords r) = []
         ∧ map QuickWin.priority (SeoResult.quickWins r)
           = [red; red; yellow; green].
Proof. split; [reflexivity |]. eexists. by vm_compute. Qed.

(** A semantic keyword spelled as the target keyword is the target keyword
    for the table: both records have the range of the target. *)
Example duplicate_of_target :
  ∃ r, analyzeSeo Examples.keywords = Some r
       ∧ map (λ k, (KeywordResult.recommendedMin k,
                    KeywordResult.recommendedMax k, KeywordResult.status k))
             (SeoResult.keywords r)
         = [(5, 9, Optimer); (2, 4, God); (2, 4, Mangler); (5, 9, Optimer)].
Proof. eexists. by vm_compute. Qed.

End examples.

(** ** More on [countOccurrences] *)
Section counting.

Lemma startsWith_length (s p : str) :
  startsWith s p = true → (length p ≤ length s)%nat.
Proof.
  revert s. induction p as [| a p IH]; intros s H; [simpl; lia |].
  destruct s as [| b s]; [done |].
  cbn [startsWith] in H. apply andb_true_iff in H as [_ H].
  apply IH in H. simpl. lia.
Qed.

(** Matches do not overlap: after a match the scan passes all its units. *)
Lemma scanFrom_chars_bound (p s : str) (skip : nat) :
  p ≠ [] →
  (length p * scanFrom [chars p] skip s ≤ length s - skip)%nat.
Proof.
  intros Hp. revert skip. induction s as [| c s IH]; intros skip.
  - destruct skip; cbn [scanFrom matchAt]; [| lia].
    rewrite matchSeq_chars. destruct p; [done |]. simpl. lia.
  - destruct skip; cbn [scanFrom matchAt].
    + rewrite matchSeq_chars.
      destruct (startsWith (c :: s) p) eqn:E.
      * apply startsWith_length in E. cbn [length] in *.
        specialize (IH (pred (length p))).
        destruct p as [| a p]; [done |]. cbn [length pred] in *. nia.
      * specialize (IH 0%nat). cbn [length]. lia.
    + specialize (IH skip). cbn [length]. lia.
Qed.

Lemma toLowerCase_nil_iff (s : str) : toLowerCase s = [] ↔ s = [].
Proof. by destruct s. Qed.

Lemma length_toLowerCase (s : str) : length (toLowerCase s) = length s.
Proof. apply length_map. Qed.

Lemma isEmpty_toLowerCase (s : str) : isEmpty (toLowerCase s) = isEmpty s.
Proof. by destruct s. Qed.

Lemma latin1_check (s : str) :
  forallb (λ c, (c <? 256)%N) s = true → Spec.latin1 s.
Proof.
  intros H. apply list.Forall_forall. intros c Hc.
  rewrite forallb_forall in H. apply N.ltb_lt, H. by apply list_elem_of_In.
Qed.

Lemma latin1Input_check (input : SeoInput.t) :
  forallb (forallb (λ c, (c <? 256)%N))
    (SeoInput.targetKeyword input :: SeoInput.pageTitle input
     :: SeoInput.metaDescription input :: SeoInput.h1 input
     :: SeoInput.bodyContent input :: SeoInput.semanticKeywords input) = true →
  Spec.latin1Input input.
Proof.
  cbn [forallb]. rewrite !andb_true_iff.
  intros (Ht & Hp & Hm & Hh & Hb & Hs).
  repeat split; try by apply latin1_check.
  apply list.Forall_forall. intros kw Hkw. apply latin1_check.
  rewrite forallb_forall in Hs. by apply Hs, list_elem_of_In.
Qed.

(** X1. [countOccurrences] never throws: whatever the keyword holds, syntax
    characters of regular expressions included, it returns a count, which
    is never negative and is 0 for an empty text or keyword. For a text and
    a keyword of the Latin-1 range the escaped and lower-cased pattern is
    the expression that matches the lower-cased keyword unit for unit, and
    the count is the number of its matches in the lower-cased text. *)
Theorem X1_countOccurrences_never_throws (text keyword : str) :
  (∃ n, countOccurrences text keyword = Some n
        ∧ 0 ≤ n
        ∧ (text = [] ∨ keyword = [] → n = 0))
  ∧ (Spec.latin1 text → Spec.latin1 keyword →
     RegExp_new (toLowerCase (escapeRegExp keyword))
     = Some (chars (toLowerCase keyword))
     ∧ (text ≠ [] → keyword ≠ [] →
        countOccurrences text keyword
        = Some (Z.of_nat (matchCount [chars (toLowerCase keyword)]
                                     (toLowerCase text))))).
Proof.
  split.
  - exists (Spec.occurrences text keyword).
    split; [apply countOccurrences_occurrences |].
    split; [apply occurrences_nonneg |].
    unfold Spec.occurrences. intros [-> | ->]; [done |].
    by rewrite orb_true_r.
  - intros _ _. split; [apply RegExp_new_escape |].
    intros Ht Hk. rewrite countOccurrences_occurrences.
    unfold Spec.occurrences. by destruct text, keyword.
Qed.

Lemma X1_countOccurrences_never_throws_witness :
  RegExp_new (toLowerCase (escapeRegExp (js "C++ (ny)")))
  = Some (chars (toLowerCase (js "C++ (ny)")))
  ∧ countOccurrences (js "Kurser i C++ (ny) og c++ (NY)") (js "C++ (ny)")
    = Some 2.
Proof.
  destruct (X1_countOccurrences_never_throws
              (js "Kurser i C++ (ny) og c++ (NY)") (js "C++ (ny)"))
    as [_ H].
  destruct H as [Hre Hn];
    [apply latin1_check; vm_compute; reflexivity
    | apply latin1_check; vm_compute; reflexivity |].
  split; [exact Hre |].
  rewrite Hn; [vm_compute; reflexivity | discriminate | discriminate].
Defined.

(** X2. For a text and a keyword of the Latin-1 range, the matches that
    [countOccurrences] counts do not overlap: the count times the length of
    the keyword is at most the length of the text. *)
Theorem X2_countOccurrences_bound (text keyword : str) :
  Spec.latin1 text → Spec.latin1 keyword →
  ∃ n, countOccurrences text keyword = Some n
       ∧ n * len keyword ≤ len text.
Proof.
  intros _ _. exists (Spec.occurrences text keyword).
  split; [apply countOccurrences_occurrences |].
  unfold Spec.occurrences, len.
  destruct (isEmpty text || isEmpty keyword) eqn:E; [lia |].
  apply orb_false_elim in E as [_ Hk].
  assert (Hp : toLowerCase keyword ≠ [])
    by (rewrite toLowerCase_nil_iff; by destruct keyword).
  pose proof (scanFrom_chars_bound _ (toLowerCase text) 0 Hp) as H.
  rewrite !length_toLowerCase in H. unfold matchCount. nia.
Qed.

Lemma X2_countOccurrences_bound_witness :
  ∃ n, countOccurrences (js "aaaaa") (js "AA") = Some n
       ∧ n * len (js "AA") ≤ len (js "aaaaa").
Proof.
  apply (X2_countOccurrences_bound (js "aaaaa") (js "AA"));
    apply latin1_check; vm_compute; reflexivity.
Defined.

(** X3. On the Latin-1 range [countOccurrences] is case-insensitive in
    both arguments: two texts with the same lower-case form and two keywords
    with the same lower-case form give the same count. *)
Theorem X3_countOccurrences_case_insensitive (text text' keyword keyword' : str) :
  Spec.latin1 text → Spec.latin1 text' →
  Spec.latin1 keyword → Spec.latin1 keyword' →
  toLowerCase text = toLowerCase text' →
  toLowerCase keyword = toLowerCase keyword' →
  countOccurrences text keyword = countOccurrences text' keyword'.
Proof.
  intros _ _ _ _ Ht Hk. rewrite !countOccurrences_occurrences. f_equal.
  unfold Spec.occurrences.
  rewrite <- (isEmpty_toLowerCase text), <- (isEmpty_toLowerCase keyword),
    <- (isEmpty_toLowerCase text'), <- (isEmpty_toLowerCase keyword').
  by rewrite Ht, Hk.
Qed.

Lemma X3_countOccurrences_case_insensitive_witness :
  countOccurrences (js "Red Shoes and RED SHOES") (js "red shoes")
  = countOccurrences (js "red shoes and red shoes") (js "Red Shoes").
Proof.
  apply (X3_countOccurrences_case_insensitive
           (js "Red Shoes and RED SHOES") (js "red shoes and red shoes")
           (js "red shoes") (js "Red Shoes"));
    first [apply latin1_check; vm_compute; reflexivity
          | vm_compute; reflexivity].
Defined.

(** X4. For a text of the Latin-1 range and a keyword of that range that
    is not empty, [countOccurrences] returns 0 exactly when the lower-cased
    text does not include the lower-cased keyword. *)
Theorem X4_countOccurrences_zero_iff_absent (text keyword : str) :
  Spec.latin1 text → Spec.latin1 keyword →
  keyword ≠ [] →
  countOccurrences text keyword = Some 0
  ↔ includes (toLowerCase text) (toLowerCase keyword) = false.
Proof.
  intros _ _ Hk. rewrite countOccurrences_occurrences.
  rewrite <- (occurrences_zero_iff text keyword Hk).
  split; [by intros [= ->] | by intros ->].
Qed.

Lemma X4_countOccurrences_zero_iff_absent_witness :
  js "boots" ≠ []
  ∧ (countOccurrences (js "Sko til alle") (js "boots") = Some 0
     ↔ includes (toLowerCase (js "Sko til alle")) (toLowerCase (js "boots"))
       = false).
Proof.
  split; [discriminate |].
  apply X4_countOccurrences_zero_iff_absent;
    first [apply latin1_check; vm_compute; reflexivity | discriminate].
Defined.

End counting.

(** ** More on the score *)
Section tiers.

Lemma filter_all {A : Type} (P : A → Prop) `{!∀ x, Decision (P x)}
    (l : list A) :
  Forall P l → filter P l = l.
Proof.
  induction 1 as [| x l Hx _ IH]; [done |].
  rewrite filter_cons_True by done. by rewrite IH.
Qed.

Lemma filter_none {A : Type} (P : A → Prop) `{!∀ x, Decision (P x)}
    (l : list A) :
  Forall (λ x, ¬ P x) l → filter P l = [].
Proof.
  induction 1 as [| x l Hx _ IH]; [done |].
  by rewrite filter_cons_False.
Qed.

(** X5. The tiers never go down: more occurrences of the target keyword
    never lower the density component, and more words never lower the
    content-length component. *)
Theorem X5_tiers_monotone (input input' : SeoInput.t) (n n' : Z) :
  n ≤ n' →
  wordCount input ≤ wordCount input' →
  densityPoints n ≤ densityPoints n'
  ∧ contentPoints input ≤ contentPoints input'.
Proof.
  intros Hn Hw. unfold densityPoints, contentPoints. split.
  - destruct (Z.leb_spec 6 n), (Z.leb_spec 6 n'),
      (Z.leb_spec 4 n), (Z.leb_spec 4 n'),
      (Z.leb_spec 2 n), (Z.leb_spec 2 n'),
      (Z.leb_spec 1 n), (Z.leb_spec 1 n'); lia.
  - destruct (Z.leb_spec 800 (wordCount input)),
      (Z.leb_spec 800 (wordCount input')),
      (Z.leb_spec 500 (wordCount input)),
      (Z.leb_spec 500 (wordCount input')),
      (Z.leb_spec 300 (wordCount input)),
      (Z.leb_spec 300 (wordCount input')),
      (Z.leb_spec 150 (wordCount input)),
      (Z.leb_spec 150 (wordCount input')); lia.
Qed.

Lemma X5_tiers_monotone_witness :
  densityPoints 3 ≤ densityPoints 4
  ∧ contentPoints Examples.scraped ≤ contentPoints Examples.emptyTarget.
Proof.
  apply (X5_tiers_monotone Examples.scraped Examples.emptyTarget 3 4).
  - lia.
  - vm_compute. discriminate.
Defined.

Variable input : SeoInput.t.

(** X8. The percentage of the report is its score: the score is an integer
    between 0 and 100, so the rounding and the clamp at 100 change nothing;
    the maximum score reported is 100. *)
Theorem X8_percentage_is_score :
  ∃ r, analyzeSeo input = Some r
       ∧ SeoResult.percentage r = SeoResult.score r
       ∧ SeoResult.maxScore r = 100.
Proof.
  exists (Spec.report input). split; [apply analyzeSeo_report |].
  split; [apply percentage_is_score | reflexivity].
Qed.

(** X9. With at least one semantic keyword: when every semantic keyword
    occurs in the text the semantic component is 15, and when none occurs
    it is 0. *)
Theorem X9_semantic_extremes :
  SeoInput.semanticKeywords input ≠ [] →
  (Forall (λ kw, ∃ n, countOccurrences (text input) kw = Some n ∧ 1 ≤ n)
          (SeoInput.semanticKeywords input) →
   ∃ c, semanticCovered input = Some c ∧ semanticPoints input c = 15)
  ∧ (Forall (λ kw, countOccurrences (text input) kw = Some 0)
            (SeoInput.semanticKeywords input) →
     ∃ c, semanticCovered input = Some c ∧ semanticPoints input c = 0).
Proof.
  intros Hne.
  assert (Htot : semanticTotal input = len (SeoInput.semanticKeywords input)).
  { unfold semanticTotal, len.
    destruct (SeoInput.semanticKeywords input); [done |]. by simpl. }
  pose proof (semanticTotal_pos input) as Hpos.
  split; intros Hall; eexists; (split; [apply semanticCovered_covered |]).
  - assert (E : Spec.covered input = SeoInput.semanticKeywords input).
    { unfold Spec.covered. apply filter_all.
      eapply list.Forall_impl; [exact Hall |]. intros kw (n & Hn & Hle).
      rewrite countOccurrences_occurrences in Hn. by injection Hn as ->. }
    unfold semanticPoints, semanticRatio.
    rewrite Math_round_fraction by done. rewrite E, <- Htot.
    symmetry. apply (Z.div_unique_pos _ _ 15 (semanticTotal input)); lia.
  - assert (E : Spec.covered input = []).
    { unfold Spec.covered. apply filter_none.
      eapply list.Forall_impl; [exact Hall |]. intros kw Hn. cbv beta in Hn.
      rewrite countOccurrences_occurrences in Hn. injection Hn as ->. lia. }
    unfold semanticPoints, semanticRatio.
    rewrite Math_round_fraction by done. rewrite E.
    change (len []) with 0. apply Z.div_small. lia.
Qed.

End tiers.

Lemma X9_semantic_extremes_witness :
  SeoInput.semanticKeywords Examples.withFaq ≠ []
  ∧ ∃ c, semanticCovered Examples.withFaq = Some c
         ∧ semanticPoints Examples.withFaq c = 15.
Proof.
  split; [discriminate |].
  apply (X9_semantic_extremes Examples.withFaq); [discriminate |].
  repeat constructor. eexists. split; [vm_compute; reflexivity | lia].
Defined.

(** ** More on the keyword table *)
Section tallies.

Lemma countStatus_cons (s : KeywordStatus) (k : KeywordResult.t)
    (l : list KeywordResult.t) :
  countStatus s (k :: l)
  = (if decide (KeywordResult.status k = s) then 1 else 0) + countStatus s l.
Proof.
  unfold countStatus, len. rewrite filter_cons.
  case_decide; cbn [length]; lia.
Qed.

Lemma tallies_partition (l : list KeywordResult.t) :
  keywordsFound l + keywordsOptimise l + keywordsMissing l = len l.
Proof.
  unfold keywordsFound, keywordsOptimise, keywordsMissing.
  induction l as [| k l IH]; [done |].
  rewrite !countStatus_cons. unfold len in *. cbn [length].
  destruct (KeywordResult.status k); repeat case_decide; try done; lia.
Qed.

Variable input : SeoInput.t.

(** X6. The three tallies of the report count the records of its table by
    status, each record once: found + optimise + missing is the number of
    records, and the missing tally is the length of the list of missing
    keywords that the gaps and the quick wins use. *)
Theorem X6_tallies_partition_the_table :
  ∃ r, analyzeSeo input = Some r
       ∧ SeoResult.keywordsFound r + SeoResult.keywordsOptimise r
         + SeoResult.keywordsMissing r
         = len (SeoResult.keywords r)
       ∧ SeoResult.keywordsMissing r
         = len (missingKeywords (SeoResult.keywords r))
       ∧ 0 ≤ SeoResult.keywordsFound r
       ∧ 0 ≤ SeoResult.keywordsOptimise r
       ∧ 0 ≤ SeoResult.keywordsMissing r.
Proof.
  exists (Spec.report input). split; [apply analyzeSeo_report |].
  cbn [Spec.report SeoResult.keywordsFound SeoResult.keywordsOptimise
       SeoResult.keywordsMissing SeoResult.keywords].
  split; [apply tallies_partition |].
  split.
  - unfold keywordsMissing, countStatus, missingKeywords, len.
    by rewrite length_map.
  - unfold keywordsFound, keywordsOptimise, keywordsMissing, countStatus, len.
    lia.
Qed.

(** X15. Every keyword that the report lists as missing is a non-empty
    keyword of the input and counts 0; the missing keywords keep the order
    of the input, target keyword first. When the fields and the keywords of
    the input are of the Latin-1 range, a missing keyword, lower-cased, is
    not included in the merged text. *)
Theorem X15_missing_keywords_come_from_the_input :
  ∃ r, analyzeSeo input = Some r
       ∧ missingKeywords (SeoResult.keywords r)
         `sublist_of` SeoInput.targetKeyword input
                        :: SeoInput.semanticKeywords input
       ∧ ∀ kw, kw ∈ missingKeywords (SeoResult.keywords r) →
               kw ≠ []
               ∧ countOccurrences (text input) kw = Some 0
               ∧ (Spec.latin1Input input →
                  includes (text input) (toLowerCase kw) = false).
Proof.
  exists (Spec.report input). split; [apply analyzeSeo_report |].
  cbn [Spec.report SeoResult.keywords]. split.
  - unfold missingKeywords, Spec.records, allKeywords.
    set (all := SeoInput.targetKeyword input :: SeoInput.semanticKeywords input).
    transitivity (filter (λ kw : str, kw ≠ []) all); [| apply sublist_filter].
    rewrite <- (map_id (filter (λ kw : str, kw ≠ []) all)) at 2.
    rewrite <- (map_map (Spec.record input) KeywordResult.keyword).
    apply fmap_sublist, sublist_filter.
  - intros kw Hin. unfold missingKeywords, Spec.records, allKeywords in Hin.
    apply list_elem_of_fmap in Hin as (k & -> & Hin).
    apply list_elem_of_filter in Hin as [Hst Hin].
    apply list_elem_of_fmap in Hin as (kw & -> & Hin).
    apply list_elem_of_filter in Hin as [Hne _].
    apply record_missing_iff in Hst. cbn [Spec.record KeywordResult.keyword].
    split; [done |]. split; [by rewrite countOccurrences_occurrences, Hst |].
    intros _. rewrite <- (text_lower input) at 1. by apply occurrences_zero_iff.
Qed.

End tallies.

Lemma X15_missing_keywords_come_from_the_input_witness :
  ∃ r, analyzeSeo Examples.missingTarget = Some r
       ∧ ∀ kw, kw ∈ missingKeywords (SeoResult.keywords r) →
               includes (text Examples.missingTarget) (toLowerCase kw) = false.
Proof.
  destruct (X15_missing_keywords_come_from_the_input Examples.missingTarget)
    as (r & Hr & _ & H).
  exists r. split; [exact Hr |]. intros kw Hkw.
  destruct (H kw Hkw) as (_ & _ & Hl). apply Hl.
  apply latin1Input_check. vm_compute. reflexivity.
Defined.

(** ** Recommendations and quick wins against the score *)
Section recommendations.

Lemma includes_nonempty (s p : str) :
  includes s p = true → p ≠ [] → s ≠ [].
Proof. intros H Hp ->. destruct p; [done |]. done. Qed.

Lemma startsWith_app (s t p : str) :
  startsWith s p = true → startsWith (s ++ t) p = true.
Proof.
  revert s. induction p as [| a p IH]; intros s H; [apply startsWith_nil |].
  destruct s as [| b s]; [done |].
  cbn [app startsWith] in *. apply andb_true_iff in H as [-> H].
  by rewrite IH.
Qed.

Lemma includes_app_l (s t p : str) :
  includes s p = true → includes (s ++ t) p = true.
Proof.
  induction s as [| c s IH]; intros H.
  - cbn [includes] in H. rewrite orb_false_r in H.
    destruct p; [apply includes_nil | done].
  - cbn [app includes] in *. apply orb_true_iff in H as [H | H].
    + change (c :: s ++ t) with ((c :: s) ++ t).
      by rewrite (startsWith_app (c :: s) t p H).
    + rewrite (IH H). apply orb_true_r.
Qed.

Lemma includes_app_r (s t p : str) :
  includes t p = true → includes (s ++ t) p = true.
Proof.
  intros H. induction s as [| c s IH]; [done |].
  cbn [app includes]. rewrite IH. apply orb_true_r.
Qed.

Lemma itemIf_nil {A : Type} (check : bool) (item : A) :
  Spec.itemIf check item = [] ↔ check = false.
Proof. by destruct check. Qed.

Variable input : SeoInput.t.

(** The merged text, field by field. *)
Lemma text_fields :
  text input
  = toLowerCase (SeoInput.pageTitle input) ++ js " "
    ++ toLowerCase (SeoInput.metaDescription input) ++ js " "
    ++ toLowerCase (SeoInput.h1 input) ++ js " "
    ++ toLowerCase (SeoInput.bodyContent input).
Proof.
  unfold text, fullText. cbn [join]. by rewrite !toLowerCase_app.
Qed.

Lemma occurrences_present (keyword : str) :
  keyword ≠ [] →
  includes (text input) (toLowerCase keyword) = true →
  1 ≤ Spec.occurrences (text input) keyword.
Proof.
  intros Hk Hin. pose proof (occurrences_nonneg (text input) keyword).
  destruct (Z.eq_dec (Spec.occurrences (text input) keyword) 0) as [E |]; [| lia].
  apply occurrences_zero_iff in E; [| done].
  rewrite text_lower in E. congruence.
Qed.

(** X7. The report has seven recommendations, on the title, the H1, the
    subheadings, the content length, the links, the meta description and
    the FAQ, in this order, and the severity of each of the first six
    follows the points of its score component: ok is the full title, meta,
    subheading or link points and at least 14 content points; error is no
    H1 points, no subheading points, no link points, at most 4 content
    points and a title or description without the keyword. *)
Theorem X7_recommendations_follow_the_score :
  ∃ r sTitle sH1 sSub sContent sLinks sMeta sFaq,
    analyzeSeo input = Some r
    ∧ map RecommendationItem.id (SeoResult.recommendations r)
      = [js "title"; js "h1"; js "subheadings"; js "content"; js "links";
         js "meta"; js "faq"]
    ∧ map RecommendationItem.status (SeoResult.recommendations r)
      = [sTitle; sH1; sSub; sContent; sLinks; sMeta; sFaq]
    ∧ (sTitle = ok ↔ titlePoints input = 15)
    ∧ (sTitle = error ↔ titleHasKeyword input = false)
    ∧ (sH1 = ok ↔ h1HasKeyword input = true)
    ∧ (sH1 = error ↔ h1Points input = 0)
    ∧ (sSub = ok ↔ subheadingPoints input = 5)
    ∧ (sSub = error ↔ subheadingPoints input = 0)
    ∧ (sContent = ok ↔ 14 ≤ contentPoints input)
    ∧ (sContent = error ↔ contentPoints input ≤ 4)
    ∧ (sLinks = ok ↔ linkPoints input = 5)
    ∧ (sLinks = error ↔ linkPoints input = 0)
    ∧ (sMeta = ok ↔ metaPoints input = 15)
    ∧ (sMeta = error ↔ metaHasKeyword input = false)
    ∧ (sFaq = ok ∨ sFaq = warn).
Proof.
  eexists (Spec.report input), _, _, _, _, _, _, _.
  split; [apply analyzeSeo_report |].
  split; [reflexivity |]. split; [reflexivity |].
  unfold titlePoints, h1Points, subheadingPoints, contentPoints, linkPoints,
    metaPoints, faqStatus.
  repeat split;
    try (destruct (titleHasKeyword input), (titleGoodLength input);
         simpl; intros; first [done | lia]);
    try (destruct (h1HasKeyword input), (h1Present input);
         simpl; intros; first [done | lia]);
    try (destruct (metaHasKeyword input), (metaGoodLength input);
         simpl; intros; first [done | lia]);
    try (destruct (Z.leb_spec 2 (h2Count input)),
           (Z.leb_spec 1 (h2Count input)); intros; first [done | lia]);
    try (destruct (Z.leb_spec 800 (wordCount input)),
           (Z.leb_spec 500 (wordCount input)),
           (Z.leb_spec 300 (wordCount input)),
           (Z.leb_spec 150 (wordCount input)); intros; first [done | lia]);
    try (destruct (Z.leb_spec 1 (internalLinks input));
         intros; first [done | lia]).
  destruct (test faqRe _); [by left | by right].
Qed.

(** X10. The report has at most five quick wins, and none exactly when the
    meta description has its 15 points, the page has 500 words or more, no
    keyword is missing, a FAQ section is detected and the page has three
    links or more. *)
Theorem X10_no_quick_win_iff_all_checks_pass :
  ∃ r, analyzeSeo input = Some r
       ∧ (length (SeoResult.quickWins r) ≤ 5)%nat
       ∧ (SeoResult.quickWins r = []
          ↔ metaPoints input = 15
            ∧ 500 ≤ wordCount input
            ∧ missingKeywords (SeoResult.keywords r) = []
            ∧ Spec.hasFaq input = true
            ∧ 3 ≤ internalLinks input).
Proof.
  exists (Spec.report input). split; [apply analyzeSeo_report |].
  cbn [Spec.report SeoResult.quickWins SeoResult.keywords].
  destruct (quickWins_items input (Spec.records input))
    as (q1 & q2 & q3 & q4 & q5 & -> & _).
  split.
  { rewrite !length_app. unfold Spec.itemIf.
    repeat case_match; cbn [length]; lia. }
  rewrite !app_nil, !itemIf_nil, len_pos_nonempty.
  rewrite bool_decide_eq_false, Z.ltb_ge, Z.ltb_ge, negb_false_iff.
  assert (Hmeta : negb (metaHasKeyword input) || negb (metaGoodLength input)
                  = false ↔ metaPoints input = 15).
  { unfold metaPoints.
    destruct (metaHasKeyword input), (metaGoodLength input); simpl;
      split; intros; first [done | lia]. }
  rewrite Hmeta.
  assert (Hdec : ¬ missingKeywords (Spec.records input) ≠ []
                 ↔ missingKeywords (Spec.records input) = []).
  { split; [apply dec_stable | intros E H; by apply H]. }
  rewrite Hdec. tauto.
Qed.

(** X11. For an input whose fields and keywords are of the Latin-1 range: a
    target keyword that is not empty and is found in the title, in the meta
    description or in the H1 occurs in the merged text: its count is at
    least 1, the density component is at least 2, and no record of it is
    missing. *)
Theorem X11_keyword_in_a_field_is_counted :
  Spec.latin1Input input →
  SeoInput.targetKeyword input ≠ [] →
  titleHasKeyword input = true ∨ metaHasKeyword input = true
  ∨ h1HasKeyword input = true →
  ∃ r n, analyzeSeo input = Some r
         ∧ targetCount input = Some n
         ∧ 1 ≤ n
         ∧ 2 ≤ densityPoints n
         ∧ SeoInput.targetKeyword input
           ∉ missingKeywords (SeoResult.keywords r).
Proof.
  intros _ Hne Hfield.
  assert (Hin : includes (text input)
                  (toLowerCase (SeoInput.targetKeyword input)) = true).
  { rewrite text_fields.
    unfold titleHasKeyword, metaHasKeyword, h1HasKeyword in Hfield.
    destruct Hfield as [H | [H | H]].
    - by apply includes_app_l.
    - do 2 apply includes_app_r. by apply includes_app_l.
    - do 4 apply includes_app_r. by apply includes_app_l. }
  pose proof (occurrences_present _ Hne Hin) as Hocc.
  exists (Spec.report input),
    (Spec.occurrences (text input) (SeoInput.targetKeyword input)).
  split; [apply analyzeSeo_report |].
  split; [apply targetCount_occurrences |]. split; [done |]. split.
  - unfold densityPoints. repeat case_match; lia.
  - cbn [Spec.report SeoResult.keywords].
    unfold missingKeywords, Spec.records.
    intros Hm. apply list_elem_of_fmap in Hm as (k & Hk & Hm).
    apply list_elem_of_filter in Hm as [Hst Hm].
    apply list_elem_of_fmap in Hm as (kw & -> & _).
    apply record_missing_iff in Hst. cbn [Spec.record KeywordResult.keyword] in Hk.
    subst kw. lia.
Qed.

(** X12. With a target keyword that is not empty, an H1 that contains the
    keyword is present: the H1 component is then the full 10 points. *)
Theorem X12_h1_with_keyword_scores_10 :
  SeoInput.targetKeyword input ≠ [] →
  h1HasKeyword input = true →
  h1Present input = true ∧ h1Points input = 10.
Proof.
  intros Hne Hh. assert (Hp : h1Present input = true).
  { unfold h1Present, len. unfold h1HasKeyword in Hh.
    apply includes_nonempty in Hh; [| by rewrite toLowerCase_nil_iff].
    rewrite toLowerCase_nil_iff in Hh.
    destruct (SeoInput.h1 input); [done |]. apply Z.ltb_lt. simpl. lia. }
  split; [done |]. unfold h1Points. by rewrite Hp, Hh.
Qed.

End recommendations.

Lemma X11_keyword_in_a_field_is_counted_witness :
  SeoInput.targetKeyword Examples.withFaq ≠ []
  ∧ titleHasKeyword Examples.withFaq = true
  ∧ ∃ n, targetCount Examples.withFaq = Some n ∧ 1 ≤ n.
Proof.
  split; [discriminate |]. split; [reflexivity |].
  destruct (X11_keyword_in_a_field_is_counted Examples.withFaq)
    as (r & n & _ & Hn & Hle & _);
    [apply latin1Input_check; vm_compute; reflexivity
    | discriminate | left; reflexivity |].
  exists n. split; [exact Hn | exact Hle].
Defined.

Lemma X12_h1_with_keyword_scores_10_witness :
  SeoInput.targetKeyword Examples.withFaq ≠ []
  ∧ h1HasKeyword Examples.withFaq = true
  ∧ h1Present Examples.withFaq = true
  ∧ h1Points Examples.withFaq = 10.
Proof.
  split; [discriminate |]. split; [reflexivity |].
  apply (X12_h1_with_keyword_scores_10 Examples.withFaq);
    [discriminate | reflexivity].
Defined.

(** ** The engine's own word count *)
Section words.

(** The words of a body: the non-empty pieces of its split. *)
Lemma words_run (s : str) :
  filter (λ w : str, w ≠ []) (splitWsFrom true [] s)
  = filter (λ w : str, w ≠ []) (splitWsFrom false [] s).
Proof.
  destruct s as [| c s]; [done |]. cbn [splitWsFrom].
  destruct (isWhiteSpace c); [| done]. by rewrite filter_cons_False by auto.
Qed.

Lemma words_app (inRun : bool) (cur a b : str) (w : N) :
  isWhiteSpace w = true →
  (inRun = true → cur = []) →
  filter (λ w : str, w ≠ []) (splitWsFrom inRun cur (a ++ w :: b))
  = filter (λ w : str, w ≠ []) (splitWsFrom inRun cur a)
    ++ filter (λ w : str, w ≠ []) (splitWs b).
Proof.
  intros Hw. revert inRun cur.
  induction a as [| c a IH]; intros inRun cur Hcur.
  - cbn [app splitWsFrom]. rewrite Hw. unfold splitWs. destruct inRun.
    + rewrite (Hcur eq_refl), words_run. by rewrite filter_cons_False by auto.
    + rewrite !filter_cons, filter_nil, words_run. by case_decide.
  - cbn [app splitWsFrom]. destruct (isWhiteSpace c), inRun.
    + by apply IH.
    + rewrite !filter_cons, (IH true []) by done. by case_decide.
    + by apply IH.
    + by apply IH.
Qed.

Lemma words_blank (inRun : bool) (s : str) :
  Forall (λ c, isWhiteSpace c = true) s →
  filter (λ w : str, w ≠ []) (splitWsFrom inRun [] s) = [].
Proof.
  intros H. revert inRun. induction H as [| c s Hc _ IH]; intros inRun.
  - cbn [splitWsFrom]. by rewrite filter_cons_False by auto.
  - cbn [splitWsFrom]. rewrite Hc. destruct inRun; [apply IH |].
    rewrite filter_cons_False by auto. apply IH.
Qed.

(** X13. When no word count is supplied, the engine counts the words of
    the body so that the count of two bodies joined by one white-space unit
    is the sum of their counts, and a body of white space only has 0
    words. *)
Theorem X13_word_count_additive (input a b : SeoInput.t) (w : N) :
  SeoInput.wordCount input = None →
  SeoInput.wordCount a = None →
  SeoInput.wordCount b = None →
  (isWhiteSpace w = true →
   SeoInput.bodyContent input
   = SeoInput.bodyContent a ++ w :: SeoInput.bodyContent b →
   wordCount input = wordCount a + wordCount b)
  ∧ (Forall (λ c, isWhiteSpace c = true) (SeoInput.bodyContent input) →
     wordCount input = 0).
Proof.
  intros Hi Ha Hb. unfold wordCount. rewrite Hi, Ha, Hb. cbn [default].
  split.
  - intros Hw ->. unfold splitWs at 1. rewrite words_app by done.
    unfold len. rewrite length_app. fold (splitWs (SeoInput.bodyContent a)). lia.
  - intros Hblank. unfold splitWs. by rewrite words_blank.
Qed.

Lemma X13_word_count_additive_witness :
  wordCount Examples.bodyAB = wordCount Examples.bodyA + wordCount Examples.bodyB.
Proof.
  apply (X13_word_count_additive Examples.bodyAB Examples.bodyA
           Examples.bodyB 0x0A%N); reflexivity.
Defined.

End words.

(** ** The phrases of the FAQ detection *)
Section faq_phrases.

Lemma matchAt_elem (r : regex) (alt : RegExp.seq) (s : str) (n : nat) :
  alt ∈ r → matchSeq alt s = Some n → ∃ m, matchAt r s = Some m.
Proof.
  intros Hin Hm. induction r as [| a r IH]; [by apply elem_of_nil in Hin |].
  cbn [matchAt]. destruct (matchSeq a s) eqn:E; [eauto |].
  apply elem_of_cons in Hin as [-> | Hin]; [congruence | by apply IH].
Qed.

Lemma faqRe_phrases :
  faqRe
  = map charsi [js "faq"; js "ofte stillede spørgsmål";
                js "spørgsmål og svar"; js "q&a"; js "questions"].
Proof. reflexivity. Qed.

Variable input : SeoInput.t.

(** X14. Each of the five phrases is detected wherever it stands in the
    concatenation of body, H1 and title, across their borders too, in any
    case and with markdown marks (_, *, #) in or around it: if a piece of
    the concatenation is the phrase once lower-cased and stripped of the
    marks, the FAQ recommendation is ok and the FAQ quick win is not in the
    list. *)
Theorem X14_faq_phrases_detected (phrase raw pre post : str) :
  phrase ∈ [js "faq"; js "ofte stillede spørgsmål"; js "spørgsmål og svar";
            js "q&a"; js "questions"] →
  stripMarkdown (toLowerCase raw) = phrase →
  SeoInput.bodyContent input ++ SeoInput.h1 input ++ SeoInput.pageTitle input
  = pre ++ raw ++ post →
  ∃ r faq,
    analyzeSeo input = Some r
    ∧ SeoResult.recommendations r !! 6%nat = Some faq
    ∧ RecommendationItem.status faq = ok
    ∧ ∀ q, q ∈ SeoResult.quickWins r →
           QuickWin.title q ≠ Spec.faqQuickWinTitle.
Proof.
  intros Hphrase Hraw Htext.
  assert (Hfaq : Spec.hasFaq input = true).
  { unfold Spec.hasFaq. rewrite Htext.
    rewrite !toLowerCase_app, !stripMarkdown_app, Hraw.
    apply test_app.
    destruct (matchAt_elem faqRe (charsi phrase)
                (phrase ++ stripMarkdown (toLowerCase post)) (length phrase))
      as [m Hm].
    - rewrite faqRe_phrases. by apply list_elem_of_fmap_2.
    - apply matchSeq_charsi.
    - by apply (test_matchAt _ _ m). }
  eexists (Spec.report input), _.
  split; [apply analyzeSeo_report |]. split; [reflexivity |].
  cbn [Spec.report SeoResult.quickWins RecommendationItem.status].
  rewrite faqStatus_hasFaq, Hfaq. split; [done |].
  by apply faq_quick_win_absent_iff.
Qed.

End faq_phrases.

Lemma X14_faq_phrases_detected_witness :
  ∃ r faq,
    analyzeSeo Examples.emphasisedFaq = Some r
    ∧ SeoResult.recommendations r !! 6%nat = Some faq
    ∧ RecommendationItem.status faq = ok
    ∧ ∀ q, q ∈ SeoResult.quickWins r →
           QuickWin.title q ≠ Spec.faqQuickWinTitle.
Proof.
  apply (X14_faq_phrases_detected Examples.emphasisedFaq
           (js "q&a") (js "Q&**A**") (js "Sko## ") (js " om skoSko")).
  - vm_compute. do 3 right. left.
  - vm_compute. reflexivity.
  - vm_compute. reflexivity.
Defined.

(** ** Trimming and splitting *)
Section trimming.

Lemma trimStart_decomp (s : str) :
  ∃ ws, s = ws ++ trimStart s ∧ Forall (λ c, isWhiteSpace c = true) ws.
Proof.
  induction s as [| c s (ws & E & Hws)]; [by exists [] |].
  cbn [trimStart]. destruct (isWhiteSpace c) eqn:Hc.
  - exists (c :: ws). split; [by rewrite E at 1 | by constructor].
  - by exists [].
Qed.

Lemma trimStart_head (s t : str) (c : N) :
  trimStart s = c :: t → isWhiteSpace c = false.
Proof.
  induction s as [| b s IH]; [done |]. cbn [trimStart].
  destruct (isWhiteSpace b) eqn:Hb; [done |]. by intros [= <- _].
Qed.

Lemma trimStart_fixed (s : str) :
  (∀ c t, s = c :: t → isWhiteSpace c = false) → trimStart s = s.
Proof.
  destruct s as [| c s]; [done |]. intros H. cbn [trimStart].
  by rewrite (H c s eq_refl).
Qed.

Lemma trimStart_idempotent (s : str) : trimStart (trimStart s) = trimStart s.
Proof.
  apply trimStart_fixed. intros c t E. by apply trimStart_head in E.
Qed.

Lemma trimStart_blank (s : str) :
  Forall (λ c, isWhiteSpace c = true) s → trimStart s = [].
Proof. induction 1 as [| c s Hc _ IH]; [done |]. cbn. by rewrite Hc. Qed.

Lemma trimEnd_decomp (s : str) :
  ∃ ws, s = trimEnd s ++ ws ∧ Forall (λ c, isWhiteSpace c = true) ws.
Proof.
  destruct (trimStart_decomp (reverse s)) as (ws & E & Hws).
  exists (reverse ws). split; [| by apply Forall_reverse].
  unfold trimEnd. rewrite <- reverse_app, <- E. by rewrite reverse_involutive.
Qed.

Lemma trimEnd_idempotent (s : str) : trimEnd (trimEnd s) = trimEnd s.
Proof.
  unfold trimEnd. by rewrite reverse_involutive, trimStart_idempotent.
Qed.

(** The trimmed string is the string without white space at its ends. *)
Lemma trim_decomp (s : str) :
  ∃ ws1 ws2, s = ws1 ++ trim s ++ ws2
             ∧ Forall (λ c, isWhiteSpace c = true) ws1
             ∧ Forall (λ c, isWhiteSpace c = true) ws2.
Proof.
  destruct (trimStart_decomp s) as (ws1 & E1 & H1).
  destruct (trimEnd_decomp (trimStart s)) as (ws2 & E2 & H2).
  exists ws1, ws2. unfold trim. by rewrite <- E2.
Qed.

Lemma trim_head (s t : str) (c : N) :
  trim s = c :: t → isWhiteSpace c = false.
Proof.
  intros E. destruct (trimEnd_decomp (trimStart s)) as (ws & E2 & _).
  fold (trim s) in E2. rewrite E in E2. by apply trimStart_head in E2.
Qed.

Lemma trim_idempotent (s : str) : trim (trim s) = trim s.
Proof.
  unfold trim at 1. rewrite trimStart_fixed.
  - unfold trim. apply trimEnd_idempotent.
  - intros c t E. by apply trim_head in E.
Qed.

Lemma trim_blank (s : str) :
  Forall (λ c, isWhiteSpace c = true) s → trim s = [].
Proof. intros H. unfold trim. by rewrite trimStart_blank. Qed.

Lemma trim_elem_of (s : str) (c : N) : c ∈ trim s → c ∈ s.
Proof.
  destruct (trim_decomp s) as (ws1 & ws2 & E & _). intros H.
  rewrite E, !elem_of_app. auto.
Qed.

Lemma trim_length (s : str) : (length (trim s) ≤ length s)%nat.
Proof.
  destruct (trim_decomp s) as (ws1 & ws2 & E & _).
  rewrite E at 2. rewrite !length_app. lia.
Qed.

Lemma trim_not_blank (s : str) : trim s ≠ [] → Spec.isBlank (trim s) = false.
Proof.
  destruct (trim s) as [| c t] eqn:E; [done |]. intros _.
  cbn [Spec.isBlank forallb]. by rewrite (trim_head _ _ _ E).
Qed.

(** No piece of a split holds the separator. *)
Lemma splitFrom_pieces (sep : N) (cur s : str) :
  sep ∉ cur → Forall (λ piece, sep ∉ piece) (splitFrom sep cur s).
Proof.
  revert cur. induction s as [| c s IH]; intros cur Hcur.
  - by repeat constructor.
  - cbn [splitFrom]. destruct (N.eqb_spec c sep) as [-> | Hne].
    + constructor; [done |]. apply IH. apply not_elem_of_nil.
    + apply IH. rewrite elem_of_app, list_elem_of_singleton.
      intros [? | ?]; [done | congruence].
Qed.

Lemma splitFrom_first (sep : N) (cur s : str) :
  ∃ piece rest,
    splitFrom sep cur s = piece :: rest
    ∧ (length piece ≤ length cur + length s)%nat.
Proof.
  revert cur. induction s as [| c s IH]; intros cur.
  - exists cur, []. split; [done | lia].
  - cbn [splitFrom]. destruct (c =? sep)%N.
    + eexists _, _. split; [done | lia].
    + destruct (IH (cur ++ [c])) as (piece & rest & E & Hlen).
      exists piece, rest. split; [done |].
      rewrite length_app in Hlen. cbn [length] in *. lia.
Qed.

Lemma includes_unit (s : str) (c : N) : includes s [c] = true ↔ c ∈ s.
Proof.
  induction s as [| b s IH]; [by rewrite elem_of_nil |].
  cbn [includes startsWith]. rewrite startsWith_nil, andb_true_r.
  rewrite orb_true_iff, IH, elem_of_cons, N.eqb_eq. tauto.
Qed.

End trimming.

(** ** The page that calls the engine *)
Section page.

Lemma records_nonempty (input : SeoInput.t) :
  Forall (λ k, KeywordResult.keyword k ≠ []) (Spec.records input).
Proof.
  unfold Spec.records, allKeywords. apply Forall_map, list.Forall_forall.
  intros kw Hin. by apply list_elem_of_filter in Hin as [Hne _].
Qed.

Variable form : FormState.t.

Lemma form_keywords :
  Forall (λ kw, kw ≠ [] ∧ trim kw = kw ∧ Spec.isBlank kw = false ∧ comma ∉ kw)
         (SeoInput.semanticKeywords (formInput form)).
Proof.
  cbn [formInput SeoInput.semanticKeywords]. apply list.Forall_forall.
  intros kw Hin. apply list_elem_of_filter in Hin as [Hne Hin].
  apply list_elem_of_fmap in Hin as (piece & -> & Hin).
  split; [done |]. split; [apply trim_idempotent |].
  split; [by apply trim_not_blank |].
  intros Hc%trim_elem_of.
  pose proof (splitFrom_pieces comma [] (FormState.semanticKeywords form)
                (not_elem_of_nil _)) as Hp.
  rewrite list.Forall_forall in Hp. by apply (Hp piece).
Qed.

(** X16. The semantic keywords that the page passes to the engine are the
    comma-separated entries of the form field, trimmed, without the empty
    ones: none is empty or white space only, none has white space at its
    ends or a comma. When the trimmed target keyword is not empty, the
    table of the report has one record for the target keyword and one for
    each of these keywords, in the order of the field. *)
Theorem X16_form_keywords_all_get_a_record :
  Forall (λ kw, kw ≠ [] ∧ trim kw = kw ∧ Spec.isBlank kw = false ∧ comma ∉ kw)
         (SeoInput.semanticKeywords (formInput form))
  ∧ (trim (FormState.targetKeyword form) ≠ [] →
     ∃ r, recalculate form = Some (Some r)
          ∧ map KeywordResult.keyword (SeoResult.keywords r)
            = trim (FormState.targetKeyword form)
                :: SeoInput.semanticKeywords (formInput form)).
Proof.
  split; [apply form_keywords |]. intros Ht.
  exists (Spec.report (formInput form)). split.
  - unfold recalculate.
    destruct (FormState.targetKeyword form) eqn:E; [done |].
    cbn [isEmpty]. by rewrite analyzeSeo_report.
  - cbn [Spec.report SeoResult.keywords]. rewrite records_keywords.
    unfold allKeywords. change (SeoInput.targetKeyword (formInput form))
      with (trim (FormState.targetKeyword form)).
    rewrite filter_cons_True by done. f_equal. apply filter_all.
    eapply list.Forall_impl; [apply form_keywords |]. by intros kw [? _].
Qed.

(** X17. Recalculating never throws. The result is cleared exactly when the
    keyword field of the form is empty; otherwise it is the report of the
    engine on the input built from the form. A keyword field of white space
    only is not empty: the engine then runs with an empty target keyword,
    and the report has at least 23 points and no record of a target. *)
Theorem X17_recalculate_guard :
  ∃ o, recalculate form = Some o
       ∧ (o = None ↔ FormState.targetKeyword form = [])
       ∧ (∀ r, o = Some r → analyzeSeo (formInput form) = Some r)
       ∧ (FormState.targetKeyword form ≠ [] →
          Forall (λ c, isWhiteSpace c = true) (FormState.targetKeyword form) →
          ∃ r, o = Some r
               ∧ SeoInput.targetKeyword (formInput form) = []
               ∧ 23 ≤ SeoResult.score r
               ∧ Forall (λ k, KeywordResult.keyword k ≠ [])
                        (SeoResult.keywords r)).
Proof.
  unfold recalculate. rewrite analyzeSeo_report.
  destruct (FormState.targetKeyword form) as [| c t] eqn:E; cbn [isEmpty].
  - exists None. repeat split; done.
  - exists (Some (Spec.report (formInput form))).
    split; [done |]. split; [done |].
    split; [by intros r [= <-] |].
    intros _ Hblank. eexists. split; [done |].
    assert (Ht : SeoInput.targetKeyword (formInput form) = []).
    { cbn [formInput SeoInput.targetKeyword]. rewrite E. by apply trim_blank. }
    split; [done |].
    split; [by apply empty_target_score_at_least_23 |].
    apply records_nonempty.
Qed.

End page.

Lemma X16_form_keywords_all_get_a_record_witness :
  SeoInput.semanticKeywords (formInput Examples.form)
  = [js "boots"; js "sandaler"]
  ∧ ∃ r, recalculate Examples.form = Some (Some r)
         ∧ map KeywordResult.keyword (SeoResult.keywords r)
           = [js "sko"; js "boots"; js "sandaler"].
Proof.
  split; [vm_compute; reflexivity |].
  destruct (X16_form_keywords_all_get_a_record Examples.form) as [_ H].
  apply H. vm_compute. discriminate.
Defined.

Lemma X17_recalculate_guard_witness :
  ∃ r, recalculate Examples.blankTargetForm = Some (Some r)
       ∧ 23 ≤ SeoResult.score r.
Proof.
  destruct (X17_recalculate_guard Examples.blankTargetForm)
    as (o & Ho & _ & _ & H).
  assert (Hne : FormState.targetKeyword Examples.blankTargetForm ≠ [])
    by discriminate.
  assert (Hblank : Forall (λ c, isWhiteSpace c = true)
                     (FormState.targetKeyword Examples.blankTargetForm))
    by repeat constructor.
  destruct (H Hne Hblank) as (r & Hr & _ & Hs & _).
  exists r. rewrite <- Hr. split; [exact Ho | exact Hs].
Defined.

(** ** The meta description of the scrape route *)
Section description.

Variable description : str.

Lemma fixDescription_cases :
  fixDescription description = description
  ∨ ((comma ∉ fixDescription description)
     ∧ trim (fixDescription description) = fixDescription description
     ∧ (length (fixDescription description) ≤ length description)%nat).
Proof.
  unfold fixDescription.
  destruct (includes description [comma]); [| by left].
  cbv zeta. unfold Caller.split.
  destruct (splitFrom_first comma [] description) as (p0 & rest & E & Hlen).
  pose proof (splitFrom_pieces comma [] description (not_elem_of_nil comma))
    as Hp.
  rewrite E in *. destruct rest as [| p1 rest]; [by left |].
  destruct (50 <? len (trim p1)); [| by left]. right.
  apply list.Forall_cons in Hp as [Hp0 _].
  split; [by intros Hc%trim_elem_of |].
  split; [apply trim_idempotent |].
  pose proof (trim_length p0). cbn [length] in Hlen. lia.
Qed.

(** X18. The scrape route shortens a meta description only to the trimmed
    text before its first comma: the result is never longer, a description
    without a comma is kept as it is, a shortened one holds no comma and no
    white space at its ends, and fixing twice is fixing once. *)
Theorem X18_fixDescription_idempotent :
  fixDescription (fixDescription description) = fixDescription description
  ∧ len (fixDescription description) ≤ len description
  ∧ (comma ∉ description → fixDescription description = description)
  ∧ (fixDescription description ≠ description →
     (comma ∉ fixDescription description)
     ∧ trim (fixDescription description) = fixDescription description).
Proof.
  assert (Hkeep : ∀ d, comma ∉ d → fixDescription d = d).
  { intros d Hd. unfold fixDescription.
    destruct (includes d [comma]) eqn:E; [| done].
    by apply includes_unit in E. }
  destruct fixDescription_cases as [E | (Hc & Ht & Hl)].
  - rewrite !E. split; [done |]. split; [lia |]. split; done.
  - split; [by apply Hkeep |]. split; [unfold len; lia |].
    split; [apply Hkeep | done].
Qed.

End description.

(** ** Quick wins against recommendations *)
Section quick_wins_and_recommendations.

Lemma map_itemIf {A B : Type} (f : A → B) (check : bool) (item : A) :
  map f (Spec.itemIf check item) = Spec.itemIf check (f item).
Proof. by destruct check. Qed.

Lemma quickWinTitles_at (i j : nat) (t u : str) :
  Spec.quickWinTitles !! i = Some t →
  Spec.quickWinTitles !! j = Some u →
  i ≠ j → t ≠ u.
Proof.
  intros Hi Hj Hne E. subst u.
  assert (Hdup : NoDup Spec.quickWinTitles).
  { apply (bool_decide_unpack (NoDup Spec.quickWinTitles)).
    vm_compute. exact I. }
  by apply Hne, (NoDup_lookup _ i j t Hdup).
Qed.

Variable input : SeoInput.t.

(** The titles of the quick wins of a table, check by check. *)
Lemma quickWins_titles (keywordResults : list KeywordResult.t) :
  ∃ t1 t2 t3 t4 t5,
    Spec.quickWinTitles = [t1; t2; t3; t4; t5]
    ∧ map QuickWin.title (quickWins input keywordResults)
      = Spec.itemIf (negb (metaHasKeyword input) || negb (metaGoodLength input)) t1
        ++ Spec.itemIf (wordCount input <? 500) t2
        ++ Spec.itemIf (0 <? len (missingKeywords keywordResults)) t3
        ++ Spec.itemIf (negb (Spec.hasFaq input)) t4
        ++ Spec.itemIf (internalLinks input <? 3) t5.
Proof.
  destruct (quickWins_items input keywordResults)
    as (q1 & q2 & q3 & q4 & q5 & -> & _ & Ht & _).
  exists (QuickWin.title q1), (QuickWin.title q2), (QuickWin.title q3),
    (QuickWin.title q4), (QuickWin.title q5).
  split; [by rewrite <- Ht |].
  by rewrite !map_app, !map_itemIf.
Qed.

(** X19. A quick win is in the list exactly when its check fires, and the
    checks agree with the recommendations where they share a threshold: the
    meta quick win is there exactly when the meta recommendation is not ok,
    the content quick win exactly when the content recommendation is not
    ok, the keyword quick win exactly when the missing tally is not 0. The
    link quick win is there exactly when the page has fewer than 3 links:
    with 1 or 2 links the link recommendation is ok and the quick win is
    still in the list. *)
Theorem X19_quick_wins_against_recommendations :
  ∃ r tMeta tContent tKeywords tFaq tLinks sMeta sContent sLinks,
    analyzeSeo input = Some r
    ∧ Spec.quickWinTitles = [tMeta; tContent; tKeywords; tFaq; tLinks]
    ∧ RecommendationItem.status <$> SeoResult.recommendations r !! 5%nat
      = Some sMeta
    ∧ RecommendationItem.status <$> SeoResult.recommendations r !! 3%nat
      = Some sContent
    ∧ RecommendationItem.status <$> SeoResult.recommendations r !! 4%nat
      = Some sLinks
    ∧ (tMeta ∈ map QuickWin.title (SeoResult.quickWins r) ↔ sMeta ≠ ok)
    ∧ (tContent ∈ map QuickWin.title (SeoResult.quickWins r)
       ↔ sContent ≠ ok)
    ∧ (tKeywords ∈ map QuickWin.title (SeoResult.quickWins r)
       ↔ 0 < SeoResult.keywordsMissing r)
    ∧ (tLinks ∈ map QuickWin.title (SeoResult.quickWins r)
       ↔ internalLinks input < 3)
    ∧ (1 ≤ internalLinks input < 3 →
       sLinks = ok ∧ tLinks ∈ map QuickWin.title (SeoResult.quickWins r)).
Proof.
  destruct (quickWins_titles (Spec.records input))
    as (t1 & t2 & t3 & t4 & t5 & Ht & Hq).
  assert (Hd : ∀ i j t u, [t1; t2; t3; t4; t5] !! i = Some t →
                          [t1; t2; t3; t4; t5] !! j = Some u →
                          i ≠ j → t ≠ u)
    by (rewrite <- Ht; apply quickWinTitles_at).
  pose proof (Hd 0 1 t1 t2 eq_refl eq_refl ltac:(lia))%nat as H12.
  pose proof (Hd 0 2 t1 t3 eq_refl eq_refl ltac:(lia))%nat as H13.
  pose proof (Hd 0 3 t1 t4 eq_refl eq_refl ltac:(lia))%nat as H14.
  pose proof (Hd 0 4 t1 t5 eq_refl eq_refl ltac:(lia))%nat as H15.
  pose proof (Hd 1 2 t2 t3 eq_refl eq_refl ltac:(lia))%nat as H23.
  pose proof (Hd 1 3 t2 t4 eq_refl eq_refl ltac:(lia))%nat as H24.
  pose proof (Hd 1 4 t2 t5 eq_refl eq_refl ltac:(lia))%nat as H25.
  pose proof (Hd 2 3 t3 t4 eq_refl eq_refl ltac:(lia))%nat as H34.
  pose proof (Hd 2 4 t3 t5 eq_refl eq_refl ltac:(lia))%nat as H35.
  pose proof (Hd 3 4 t4 t5 eq_refl eq_refl ltac:(lia))%nat as H45.
  clear Hd.
  eexists (Spec.report input), t1, t2, t3, t4, t5, _, _, _.
  split; [apply analyzeSeo_report |]. split; [exact Ht |].
  split; [reflexivity |]. split; [reflexivity |]. split; [reflexivity |].
  cbn [Spec.report SeoResult.quickWins SeoResult.keywordsMissing].
  rewrite Hq. rewrite !elem_of_app, !elem_of_itemIf.
  assert (Hmiss : (0 <? len (missingKeywords (Spec.records input))) = true
                  ↔ 0 < keywordsMissing (Spec.records input)).
  { rewrite Z.ltb_lt. unfold keywordsMissing, countStatus, missingKeywords, len.
    by rewrite length_map. }
  clear Ht Hq.
  assert (M1 : ∀ c1 c2 c3 c4 c5 : bool,
             (c1 = true ∧ t1 = t1) ∨ (c2 = true ∧ t1 = t2)
             ∨ (c3 = true ∧ t1 = t3) ∨ (c4 = true ∧ t1 = t4)
             ∨ (c5 = true ∧ t1 = t5) ↔ c1 = true).
  { intros. split; [| by left].
    intros [[? _] | [[_ ?] | [[_ ?] | [[_ ?] | [_ ?]]]]]; congruence. }
  assert (M2 : ∀ c1 c2 c3 c4 c5 : bool,
             (c1 = true ∧ t2 = t1) ∨ (c2 = true ∧ t2 = t2)
             ∨ (c3 = true ∧ t2 = t3) ∨ (c4 = true ∧ t2 = t4)
             ∨ (c5 = true ∧ t2 = t5) ↔ c2 = true).
  { intros. split; [| by right; left].
    intros [[_ ?] | [[? _] | [[_ ?] | [[_ ?] | [_ ?]]]]]; congruence. }
  assert (M3 : ∀ c1 c2 c3 c4 c5 : bool,
             (c1 = true ∧ t3 = t1) ∨ (c2 = true ∧ t3 = t2)
             ∨ (c3 = true ∧ t3 = t3) ∨ (c4 = true ∧ t3 = t4)
             ∨ (c5 = true ∧ t3 = t5) ↔ c3 = true).
  { intros. split; [| by right; right; left].
    intros [[_ ?] | [[_ ?] | [[? _] | [[_ ?] | [_ ?]]]]]; congruence. }
  assert (M5 : ∀ c1 c2 c3 c4 c5 : bool,
             (c1 = true ∧ t5 = t1) ∨ (c2 = true ∧ t5 = t2)
             ∨ (c3 = true ∧ t5 = t3) ∨ (c4 = true ∧ t5 = t4)
             ∨ (c5 = true ∧ t5 = t5) ↔ c5 = true).
  { intros. split; [| by right; right; right; right].
    intros [[_ ?] | [[_ ?] | [[_ ?] | [[_ ?] | [? _]]]]]; congruence. }
  rewrite M1, M2, M3, !M5, Hmiss, !Z.ltb_lt.
  clear M1 M2 M3 M5 Hmiss H12 H13 H14 H15 H23 H24 H25 H34 H35 H45.
  split; [| split; [| split; [| split]]].
  - destruct (metaHasKeyword input), (metaGoodLength input);
      cbn [negb orb andb]; split; intros H; first [done | by destruct H].
  - destruct (Z.leb_spec 500 (wordCount input)) as [Hw | Hw].
    + split; [lia | intros H; by destruct H].
    + split; [intros _; by case_match | done].
  - done.
  - done.
  - intros [H1 H3]. split; [| done].
    by destruct (Z.leb_spec 1 (internalLinks input)); [| lia].
Qed.

End quick_wins_and_recommendations.
